(** * Backtesting scripts of vectorbt-backtesting-skills: a shallow embedding

    Prices, cash and equity are exact rationals ([Q]); growth rates that
    need real exponentiation ([calc_cagr]) live in [R].  A pandas NaN is
    [None] in an [option]. *)

From Stdlib Require Import String Reals Rpower.
From Stdlib Require Import Bool List Arith ZArith Lia Lra Psatz QArith Qminmax Qround Qabs Sorted.
Import ListNotations.

Local Open Scope Q_scope.

(* ------------------------------------------------------------------ *)
(** ** Drawdown of an equity curve (buy_hold_75_25_backtest.py)

    [running_max = equity.cummax()] and
    [drawdown = equity / running_max - 1]; the maximum drawdown reported
    by [pf.max_drawdown()] is the minimum of that series. *)
Module Drawdown.

Fixpoint cummax_aux (m : Q) (l : list Q) : list Q :=
  match l with
  | [] => []
  | x :: r => let m' := Qmax m x in m' :: cummax_aux m' r
  end.

(** [Series.cummax]: the running maximum, first element unchanged. *)
Definition cummax (l : list Q) : list Q :=
  match l with
  | [] => []
  | x :: r => x :: cummax_aux x r
  end.

(** [equity / running_max - 1], element-wise on the aligned series. *)
Definition drawdown (equity : list Q) : list Q :=
  map (fun p => fst p / snd p - 1) (combine equity (cummax equity)).

(** [min] of the drawdown series; NaN ([None]) for an empty curve. *)
Definition max_drawdown (equity : list Q) : option Q :=
  match drawdown equity with
  | [] => None
  | d :: r => Some (fold_left Qmin r d)
  end.

End Drawdown.

(* ------------------------------------------------------------------ *)
(** ** Signal masks of niftybees_rsi_accumulation_backtest.py *)
Module RsiAccumulation.

Definition RSI_BUY_THRESHOLD : Q := 68.
Definition RSI_EXIT_THRESHOLD : Q := 70.

(** A 15-minute bar as the masks see it: day of week, bar time
    (hour, minute) and [rsi_mapped] at that bar ([None] is NaN). *)
Record bar15 := {
  dayofweek : nat;
  bar_time : nat * nat;
  rsi_mapped : option Q
}.

Definition Qltb (x y : Q) : bool :=
  match Qcompare x y with Lt => true | _ => false end.

(** [is_friday & is_315pm] *)
Definition friday_315 (b : bar15) : bool :=
  Nat.eqb (dayofweek b) 4 &&
  (Nat.eqb (fst (bar_time b)) 15 && Nat.eqb (snd (bar_time b)) 15).

(** [friday_315 & rsi_mapped.notna()] *)
Definition rsi_valid (b : bar15) : bool :=
  friday_315 b && match rsi_mapped b with Some _ => true | None => false end.

(** A comparison with NaN is [False] in pandas. *)
Definition rsi_lt (b : bar15) (t : Q) : bool :=
  match rsi_mapped b with Some r => Qltb r t | None => false end.

Definition rsi_gt (b : bar15) (t : Q) : bool :=
  match rsi_mapped b with Some r => Qltb t r | None => false end.

(** [buy_mask = rsi_valid & (rsi_mapped < RSI_BUY_THRESHOLD)] *)
Definition buy_mask (bars : list bar15) : list bool :=
  map (fun b => rsi_valid b && rsi_lt b RSI_BUY_THRESHOLD) bars.

(** [exit_mask = rsi_valid & (rsi_mapped > RSI_EXIT_THRESHOLD)] *)
Definition exit_mask (bars : list bar15) : list bool :=
  map (fun b => rsi_valid b && rsi_gt b RSI_EXIT_THRESHOLD) bars.

End RsiAccumulation.

(* ------------------------------------------------------------------ *)
(** ** Daily allocation of dual_momentum_backtest.py *)
Module DualMomentum.

Inductive symbol := NIFTYBEES | GOLDBEES.

Definition symbol_eqb (a b : symbol) : bool :=
  match a, b with
  | NIFTYBEES, NIFTYBEES | GOLDBEES, GOLDBEES => true
  | _, _ => false
  end.

Definition ALLOCATION : Q := 3 # 4.

(** Timestamps are ordinals ([Z]); [winner] is the series
    [quarterly_returns.idxmax(axis=1)]: a column label or NaN per
    quarter end. *)
Definition series (A : Type) := list (Z * A).

(** [winner.shift(1)]: values move one row down, the index stays. *)
Definition shift1 {A} (w : series (option A)) : series (option A) :=
  combine (map fst w) (None :: map snd w).

Fixpoint dropna {A} (w : series (option A)) : series A :=
  match w with
  | [] => []
  | (t, Some a) :: r => (t, a) :: dropna r
  | (_, None) :: r => dropna r
  end.

(** [index.searchsorted(dt, side="right")] on a sorted index: the number
    of leading timestamps [<= dt]. *)
Fixpoint searchsorted_right (idx : list Z) (dt : Z) : nat :=
  match idx with
  | [] => 0
  | x :: r => if (x <=? dt)%Z then S (searchsorted_right r dt) else 0
  end.

Fixpoint set_nth {A} (n : nat) (v : A) (l : list A) : list A :=
  match l, n with
  | [], _ => []
  | _ :: r, O => v :: r
  | x :: r, S n' => x :: set_nth n' v r
  end.

(** The loop over [winner_shifted.items()] writing [alloc_daily]. *)
Fixpoint assign (idx : list Z) (ws : series symbol) (alloc : list (option symbol))
  : list (option symbol) :=
  match ws with
  | [] => alloc
  | (dt, sym) :: r =>
      let p := searchsorted_right idx dt in
      let alloc' := if Nat.ltb p (length idx) then set_nth p (Some sym) alloc
                    else alloc in
      assign idx r alloc'
  end.

Fixpoint ffill_from {A} (last : option A) (l : list (option A)) : list (option A) :=
  match l with
  | [] => []
  | None :: r => last :: ffill_from last r
  | Some a :: r => Some a :: ffill_from (Some a) r
  end.

(** [alloc_daily.ffill()] *)
Definition ffill {A} (l : list (option A)) : list (option A) := ffill_from None l.

Fixpoint drop_leading_na {A} (l : list (option A)) : list (option A) :=
  match l with
  | None :: r => drop_leading_na r
  | _ => l
  end.

Definition is_some {A} (o : option A) : bool := match o with Some _ => true | None => false end.

(** [alloc_daily.loc[alloc_daily.first_valid_index():]]; with no valid
    value [first_valid_index()] is [None] and [.loc[None:]] keeps every
    row. *)
Definition from_first_valid {A} (l : list (option A)) : list (option A) :=
  if existsb is_some l then drop_leading_na l else l.

Definition alloc_daily (idx : list Z) (winner : series (option symbol))
  : list (option symbol) :=
  let winner_shifted := dropna (shift1 winner) in
  let a := assign idx winner_shifted (repeat None (length idx)) in
  from_first_valid (ffill a).

(** [np.where(alloc_daily == sym, ALLOCATION, 0.0)]; NaN compares unequal. *)
Definition weight_of (s : symbol) (a : option symbol) : Q :=
  match a with Some s' => if symbol_eqb s s' then ALLOCATION else 0 | None => 0 end.

(** The rows of [weights] as (NIFTYBEES, GOLDBEES). *)
Definition weights (idx : list Z) (winner : series (option symbol)) : list (Q * Q) :=
  map (fun a => (weight_of NIFTYBEES a, weight_of GOLDBEES a)) (alloc_daily idx winner).

End DualMomentum.

(* ------------------------------------------------------------------ *)
(** ** The portfolio engine behind [vbt.Portfolio.from_orders] and
       [vbt.Portfolio.from_signals]

    Modelled from the spec: the bar-by-bar Ledger / Fill Simulator and the
    Order Sizer (spec sections 4.2, 4.3 and 7) that the scripts reach
    through [vbt.Portfolio.from_orders] and [vbt.Portfolio.from_signals];
    the engine itself is not part of src/.  One group shares one cash
    pool ([cash_sharing=True, group_by=True]); quantities are whole
    multiples of [size_granularity]; trade accounting (average cost, the
    close/open split of a reversing sell) is not modelled, as it does not
    touch cash, positions or equity. *)
Module Ledger.

Record fee_model := mk_fees { proportional_fee : Q; fixed_fee : Q }.

Inductive direction := LongOnly | LongShort.

(** Sizing intents of section 4.2; [Value None] is the infinite sentinel
    ("close the entire existing position"); [SignalEntry f] is an entry
    signal of [from_signals]: a [percent] buy taken only while flat. *)
Inductive size_kind :=
  | Percent (fraction : Q)
  | TargetPercent (fraction : Q)
  | Value (amount : option Q)
  | Quantity (units : Z)
  | SignalEntry (fraction : Q).

Record config := mk_config {
  fees : fee_model;
  min_size : Z;
  size_granularity : positive;
  direction_of : direction
}.

Record state := mk_state { cash : Q; positions : list Z }.

(** One bar of the aligned panel: timestamp, per-instrument execution
    ("close") price, per-instrument order intent ([None]: NaN, no order). *)
Record bar := mk_bar { ts : Z; closes : list Q; orders : list (option size_kind) }.

Record fill := mk_fill { f_inst : nat; f_qty : Z; f_price : Q; f_fee : Q; f_cash : Q }.

Inductive sizing_error :=
  | BelowMinSize (i : nat)
  | Clipped (i : nat)
  | Unaffordable (i : nat).

Inductive engine_error :=
  | ConfigError (field : string)
  | DataError (field : string).

Record record := mk_record {
  r_ts : Z;
  r_cash : Q;
  r_pos : list Z;
  r_equity : Q;
  r_fills : list fill;
  r_warnings : list sizing_error
}.

(** [Σ position_quantity × close] *)
Fixpoint dot (ps : list Z) (cs : list Q) : Q :=
  match ps, cs with
  | p :: ps', c :: cs' => inject_Z p * c + dot ps' cs'
  | _, _ => 0
  end.

(** Mark-to-market equity = cash + position value. *)
Definition equity (st : state) (cs : list Q) : Q := cash st + dot (positions st) cs.

(** [fee = proportional_fee × |quantity × fill_price| + fixed_fee], the
    fixed part charged once per non-zero order. *)
Definition fee (fm : fee_model) (q : Z) (p : Q) : Q :=
  if (q =? 0)%Z then 0
  else proportional_fee fm * Qabs (inject_Z q * p) + fixed_fee fm.

Fixpoint upd_nth (i : nat) (f : Z -> Z) (l : list Z) : list Z :=
  match l, i with
  | [], _ => []
  | x :: r, O => f x :: r
  | x :: r, S i' => x :: upd_nth i' f r
  end.

(** Cash cost of a fill: buys pay notional + fee, sells receive
    notional - fee. *)
Definition cash_after (fm : fee_model) (st : state) (q : Z) (p : Q) : Q :=
  cash st - (inject_Z q * p + fee fm q p).

Definition apply_fill (fm : fee_model) (st : state) (i : nat) (q : Z) (p : Q) : state :=
  mk_state (cash_after fm st q p) (upd_nth i (fun x => x + q)%Z (positions st)).

(** Round to the nearest lot. *)
Definition round_to_lot (g : positive) (x : Q) : Z :=
  (Qfloor (x / inject_Z (Zpos g) + (1 # 2)) * Zpos g)%Z.

Definition requested_qty (cfg : config) (k : size_kind) (eq : Q) (pos : Z) (p : Q) : Z :=
  let g := size_granularity cfg in
  let q :=
    match k with
    | Percent f => round_to_lot g (eq * f / p)
    | TargetPercent f => round_to_lot g ((eq * f - inject_Z pos * p) / p)
    | Value (Some a) => round_to_lot g (a / p)
    | Value None => (- pos)%Z
    | Quantity n => round_to_lot g (inject_Z n)
    | SignalEntry f => if (pos =? 0)%Z then round_to_lot g (eq * f / p) else 0%Z
    end in
  match direction_of cfg with
  | LongOnly => if (q <? 0)%Z then Z.max q (- Z.max pos 0) else q
  | LongShort => q
  end.

Definition lot_ok (cfg : config) (st : state) (q : Z) (p : Q) : bool :=
  (min_size cfg <=? Z.abs q)%Z && Qle_bool 0 (cash_after (fees cfg) st q p).

(** The largest lot count [m <= n] (in the order's direction) that keeps
    cash non-negative and is not below [min_size]. *)
Fixpoint max_affordable (cfg : config) (st : state) (sgn : Z) (p : Q) (n : nat)
  : option Z :=
  match n with
  | O => None
  | S n' =>
      let q := (sgn * Z.of_nat n * Zpos (size_granularity cfg))%Z in
      if lot_ok cfg st q p then Some q else max_affordable cfg st sgn p n'
  end.

Definition filled (cfg : config) (st : state) (i : nat) (q : Z) (p : Q)
  (w : option sizing_error) : state * option fill * option sizing_error :=
  let st' := apply_fill (fees cfg) st i q p in
  (st', Some (mk_fill i q p (fee (fees cfg) q p) (cash st')), w).

(** Size and execute one order on instrument [i]. *)
Definition exec_order (cfg : config) (st : state) (cs : list Q) (i : nat) (k : size_kind)
  : state * option fill * option sizing_error :=
  let p := nth i cs 0 in
  let q0 := requested_qty cfg k (equity st cs) (nth i (positions st) 0%Z) p in
  if (q0 =? 0)%Z then (st, None, None)
  else if (Z.abs q0 <? min_size cfg)%Z then (st, None, Some (BelowMinSize i))
  else
    match direction_of cfg with
    | LongShort => filled cfg st i q0 p None
    | LongOnly =>
        if Qle_bool 0 (cash_after (fees cfg) st q0 p) then filled cfg st i q0 p None
        else
          match max_affordable cfg st (Z.sgn q0) p
                  (Z.to_nat (Z.abs q0 / Zpos (size_granularity cfg))) with
          | Some q => filled cfg st i q p (Some (Clipped i))
          | None => (st, None, Some (Unaffordable i))
          end
    end.

Definition prospective (cfg : config) (st : state) (b : bar) (i : nat) : Z :=
  match nth i (orders b) None with
  | Some k => requested_qty cfg k (equity st (closes b)) (nth i (positions st) 0%Z)
                (nth i (closes b) 0)
  | None => 0%Z
  end.

(** Deterministic call order: sells before buys, each in column order. *)
Definition call_order (cfg : config) (st : state) (b : bar) : list nat :=
  let idx := seq 0 (length (orders b)) in
  filter (fun i => (prospective cfg st b i <? 0)%Z) idx
  ++ filter (fun i => negb (prospective cfg st b i <? 0)%Z) idx.

Definition opt_list {A} (o : option A) : list A :=
  match o with Some a => [a] | None => [] end.

Fixpoint exec_seq (cfg : config) (cs : list Q) (os : list (option size_kind))
  (st : state) (order : list nat) : state * list fill * list sizing_error :=
  match order with
  | [] => (st, [], [])
  | i :: r =>
      match nth i os None with
      | None => exec_seq cfg cs os st r
      | Some k =>
          let '(st1, f, w) := exec_order cfg st cs i k in
          let '(st2, fs, ws) := exec_seq cfg cs os st1 r in
          (st2, opt_list f ++ fs, opt_list w ++ ws)
      end
  end.

Definition process_bar (cfg : config) (st : state) (b : bar)
  : state * list fill * list sizing_error :=
  exec_seq cfg (closes b) (orders b) st (call_order cfg st b).

Fixpoint run (cfg : config) (st : state) (bars : list bar) : list record :=
  match bars with
  | [] => []
  | b :: bs =>
      let '(st', fs, ws) := process_bar cfg st b in
      mk_record (ts b) (cash st') (positions st') (equity st' (closes b)) fs ws
        :: run cfg st' bs
  end.

Definition frac_ok (k : size_kind) : bool :=
  match k with
  | Percent f | TargetPercent f | SignalEntry f => Qle_bool 0 f && Qle_bool f 1
  | _ => true
  end.

Fixpoint ts_increasing (bars : list bar) : bool :=
  match bars with
  | b1 :: ((b2 :: _) as r) => (ts b1 <? ts b2)%Z && ts_increasing r
  | _ => true
  end.

(** Fail-fast checks made before any simulation (section 7). *)
Definition validate (cfg : config) (n : nat) (bars : list bar) : option engine_error :=
  if negb (Qle_bool 0 (proportional_fee (fees cfg)) && Qle_bool 0 (fixed_fee (fees cfg)))
  then Some (ConfigError "fees"%string)
  else if negb (0 <=? min_size cfg)%Z then Some (ConfigError "min_size"%string)
  else if negb (forallb (fun b => forallb (fun o => match o with
                                                    | Some k => frac_ok k
                                                    | None => true end) (orders b)) bars)
  then Some (ConfigError "size"%string)
  else if negb (ts_increasing bars) then Some (DataError "timestamp"%string)
  else if negb (forallb (fun b => Nat.eqb (length (closes b)) n
                                  && Nat.eqb (length (orders b)) n) bars)
  then Some (DataError "close"%string)
  else None.

Definition initial_state (init_cash : Q) (n : nat) : state := mk_state init_cash (repeat 0%Z n).

Definition simulate (cfg : config) (init_cash : Q) (n : nat) (bars : list bar)
  : engine_error + list record :=
  match validate cfg n bars with
  | Some e => inl e
  | None => inr (run cfg (initial_state init_cash n) bars)
  end.

(** The same run without fees. *)
Definition zero_fee (cfg : config) : config :=
  mk_config (mk_fees 0 0) (min_size cfg) (size_granularity cfg) (direction_of cfg).

(** What a fill does to the book, fee aside: instrument, quantity, price. *)
Definition fill_key (f : fill) : nat * Z * Q := (f_inst f, f_qty f, f_price f).

(** Two runs with the same fills, bar by bar. *)
Definition same_fills (tr1 tr2 : list record) : Prop :=
  Forall2 (fun r1 r2 => map fill_key (r_fills r1) = map fill_key (r_fills r2)) tr1 tr2.

(** Replaying fills on a book. *)
Definition replay (fm : fee_model) (st : state) (keys : list (nat * Z * Q)) : state :=
  fold_left (fun s k => apply_fill fm s (fst (fst k)) (snd (fst k)) (snd k)) keys st.

(** [pf.total_return()]: final equity over the starting equity, minus one. *)
Definition total_return (init_cash : Q) (tr : list record) : Q :=
  match rev tr with
  | [] => 0
  | r :: _ => r_equity r / init_cash - 1
  end.

End Ledger.

(* ------------------------------------------------------------------ *)
(** ** Scripts driving the engine *)
Module Scripts.
Import Ledger.

(** Rows of a per-bar table zipped into engine bars. *)
Definition panel_bars (tss : list Z) (cls : list (list Q))
  (sizes : list (list (option size_kind))) : list bar :=
  map (fun x => mk_bar (fst (fst x)) (snd (fst x)) (snd x)) (combine (combine tss cls) sizes).

(** buy_hold_75_25_backtest.py: [WEIGHTS] for [SYMBOLS = [NIFTYBEES, GOLDBEES]]. *)
Definition WEIGHTS : list Q := [60 # 100; 40 # 100].

(** [size_df]: the target weights on the first row, NaN on every later row. *)
Definition size_df (n_rows : nat) (w : list Q) : list (list (option size_kind)) :=
  match n_rows with
  | O => []
  | S n' => map (fun x => Some (TargetPercent x)) w :: repeat (repeat None (length w)) n'
  end.

Definition buy_hold_bars (tss : list Z) (cls : list (list Q)) : list bar :=
  panel_bars tss cls (size_df (length tss) WEIGHTS).

(** [from_orders(..., fees=FEES, min_size=1, size_granularity=1)];
    [from_orders] trades in both directions by default. *)
Definition buy_hold_config : config := mk_config (mk_fees (1 # 1000) 0) 1 1 LongShort.

Definition INIT_CASH : Q := 1000000.

End Scripts.

(* ------------------------------------------------------------------ *)
(** ** Signal Normalizer: [ta.exrem] in SBIN_ema_crossover_backtest.py

    Modelled from the spec: [ta.exrem] is an openalgo library function,
    not part of src/; it is the single left-to-right scan of spec
    section 4.1 with a two-state flag {FLAT, OPEN}: a primary signal is
    kept while FLAT and opens, a secondary signal while OPEN closes. *)
Module Signals.

Fixpoint exrem_from (active : bool) (primary secondary : list bool) : list bool :=
  match primary, secondary with
  | p :: ps, s :: ss =>
      if negb active && p then true :: exrem_from true ps ss
      else if active && s then false :: exrem_from false ps ss
      else false :: exrem_from active ps ss
  | _, _ => []
  end.

Definition exrem (primary secondary : list bool) : list bool :=
  exrem_from false primary secondary.

(** [entries = ta.exrem(buy_raw, sell_raw)], [exits = ta.exrem(sell_raw, buy_raw)] *)
Definition entries (buy_raw sell_raw : list bool) : list bool := exrem buy_raw sell_raw.
Definition exits (buy_raw sell_raw : list bool) : list bool := exrem sell_raw buy_raw.

Inductive event := Entry | Exit.

Definition event_eqb (a b : event) : bool :=
  match a, b with Entry, Entry | Exit, Exit => true | _, _ => false end.

(** The combined event stream, bar by bar (an entry listed before an exit
    of the same bar). *)
Fixpoint events (en ex : list bool) : list event :=
  match en, ex with
  | e :: en', x :: ex' =>
      (if e then [Entry] else []) ++ (if x then [Exit] else []) ++ events en' ex'
  | _, _ => []
  end.

Fixpoint alternating_after (last : event) (l : list event) : bool :=
  match l with
  | [] => true
  | e :: r => negb (event_eqb e last) && alternating_after e r
  end.

(** No two consecutive events of the same type. *)
Definition alternating (l : list event) : bool :=
  match l with [] => true | e :: r => alternating_after e r end.

(** Strict alternation beginning with an entry. *)
Definition alternating_from_entry (l : list event) : bool :=
  match l with
  | [] => true
  | Entry :: r => alternating_after Entry r
  | Exit :: _ => false
  end.

(** No bar carries two events. *)
Definition disjoint (en ex : list bool) : bool :=
  forallb (fun p => negb (fst p && snd p)) (combine en ex).

(** Alternation of a stream that continues after the event [last]. *)
Definition alternating_opt (last : option event) (l : list event) : bool :=
  match last with None => alternating l | Some ev => alternating_after ev l end.

(** The flags of the two [exrem] scans after the last accepted event:
    both FLAT before any event, the entry scan OPEN after an entry, the
    exit scan OPEN after an exit. *)
Definition flags_agree (e x : bool) (last : option event) : Prop :=
  match last with
  | None => e = false /\ x = false
  | Some Entry => e = true /\ x = false
  | Some Exit => e = false /\ x = true
  end.

End Signals.

(* ------------------------------------------------------------------ *)
(** ** Walk-Forward Optimizer

    Modelled from the spec: the walk-forward script is not part of src/;
    this follows spec section 4.5.  The in-sample pipeline
    (signal -> order -> Ledger -> Sharpe) is a parameter: a score per grid
    point on a slice of bars, [None] for a NaN Sharpe. *)
Module WalkForward.
Section WF.
Variable params bar : Type.
Variable in_sample_sharpe : params -> list bar -> option Q.
Variable out_of_sample_return : params -> list bar -> Q.

Definition slice (l : list bar) (a b : nat) : list bar := firstn (b - a) (skipn a l).

Fixpoint windows_from (fuel : nat) (train test step n off : nat) : list nat :=
  match fuel with
  | O => []
  | S fuel' =>
      if Nat.leb (off + train + test) n
      then off :: windows_from fuel' train test step n (off + step)
      else []
  end.

(** Offsets [0, step, 2 step, ...] while [offset + train + test <= n]. *)
Definition windows (train test step n : nat) : list nat :=
  windows_from (S n) train test step n 0.

Definition Qltb (x y : Q) : bool := match Qcompare x y with Lt => true | _ => false end.

(** Arg-max of the in-sample Sharpe; NaN scores are skipped, the first
    maximum wins. *)
Fixpoint best (acc : option (params * Q)) (grid : list params) (l : list bar)
  : option (params * Q) :=
  match grid with
  | [] => acc
  | p :: g =>
      match in_sample_sharpe p l with
      | None => best acc g l
      | Some s =>
          match acc with
          | Some (_, s0) => if Qltb s0 s then best (Some (p, s)) g l else best acc g l
          | None => best (Some (p, s)) g l
          end
      end
  end.

(** The parameter set chosen for the window at [off]: fitted on
    [[off, off + train)] only. *)
Definition select (grid : list params) (bars : list bar) (train off : nat) : option params :=
  option_map fst (best None grid (slice bars off (off + train))).

(** One row per window that has a finite in-sample score: offset, chosen
    parameters, out-of-sample return on [[off + train, off + train + test)]. *)
Definition walk_forward (grid : list params) (bars : list bar) (train test step : nat)
  : list (nat * params * Q) :=
  flat_map (fun off =>
              match select grid bars train off with
              | Some p => [(off, p, out_of_sample_return p
                                     (slice bars (off + train) (off + train + test)))]
              | None => []
              end)
           (windows train test step (length bars)).

End WF.
End WalkForward.

(* ------------------------------------------------------------------ *)
(** ** [calc_cagr] (buy_hold_75_25_backtest.py, niftybees_rsi_accumulation_backtest.py) *)
Module Cagr.
Local Open Scope R_scope.

(** [if start_val <= 0 or end_val <= 0 or years <= 0: return 0.0]
    [return (end_val / start_val) ** (1 / years) - 1] *)
Definition calc_cagr (start_val end_val years : R) : R :=
  if Rle_dec start_val 0 then 0
  else if Rle_dec end_val 0 then 0
  else if Rle_dec years 0 then 0
  else Rpower (end_val / start_val) (1 / years) - 1.

End Cagr.

(* ------------------------------------------------------------------ *)
(** ** The fixed-deposit benchmark (buy_hold_75_25_backtest.py and
       niftybees_rsi_accumulation_backtest.py) *)
Module FdBenchmark.
Local Open Scope R_scope.

Definition INIT_CASH : R := 1000000.
Definition FD_CAGR : R := 645 / 10000.

(** [fd_final = INIT_CASH * (1 + FD_CAGR) ** n_years] *)
Definition fd_final (n_years : R) : R := INIT_CASH * Rpower (1 + FD_CAGR) n_years.

(** [fd_daily_rate = (1 + FD_CAGR) ** (1 / 365.25) - 1] *)
Definition fd_daily_rate : R := Rpower (1 + FD_CAGR) (1 / (36525 / 100)) - 1.

(** [INIT_CASH * (1 + fd_daily_rate) ** np.arange(n)], one value per row
    of the index it is built on. *)
Definition fd_equity (n : nat) : list R :=
  map (fun k => INIT_CASH * (1 + fd_daily_rate) ^ k) (seq 0 n).

End FdBenchmark.

(* ------------------------------------------------------------------ *)
(** ** pandas operations shared by the scripts *)
Module SeriesOps.
Import DualMomentum.

(** [mask.sum()] of a boolean series. *)
Definition count_true (l : list bool) : nat := length (filter (fun b => b) l).

(** [Series.bfill()]: a NaN takes the next valid value after it. *)
Fixpoint bfill {A} (l : list (option A)) : list (option A) :=
  match l with
  | [] => []
  | x :: r =>
      let r' := bfill r in
      match x with
      | Some a => Some a :: r'
      | None => hd None r' :: r'
      end
  end.

(** Label lookup in a series with a unique index; NaN ([None]) for a
    missing label or a stored NaN. *)
Fixpoint lookup {A} (src : series (option A)) (t : Z) : option A :=
  match src with
  | [] => None
  | (k, v) :: r => if (k =? t)%Z then v else lookup r t
  end.

(** [src.reindex(index)] (no [method]): exact label match. *)
Definition reindex {A} (src : series (option A)) (idx : list Z) : list (option A) :=
  map (lookup src) idx.

(** [src.reindex(index).ffill().bfill()], as built for [nifty_close]
    (dual_momentum_backtest.py, buy_hold_75_25_backtest.py) and
    [open_prices] (dual_momentum_backtest.py). *)
Definition reindex_ffill_bfill {A} (src : series (option A)) (idx : list Z) : list (option A) :=
  bfill (ffill (reindex src idx)).

End SeriesOps.

(* ------------------------------------------------------------------ *)
(** ** Quarterly winners and rebalance days (dual_momentum_backtest.py) *)
Module Rebalance.
Import DualMomentum.

(** [quarterly_returns = quarterly_close.pct_change()], which pandas
    computes as [quarterly_close / quarterly_close.shift(1) - 1]; the
    first row is NaN.  [quarterly_close] holds no NaN: [close_prices] was
    [dropna()]-ed and quarters without a bar are removed by
    [dropna(how="all")].  Columns are (NIFTYBEES, GOLDBEES); closes are
    positive, so no division by zero occurs. *)
Fixpoint pct_change_from (prev : Q * Q) (qc : series (Q * Q))
  : series (option Q * option Q) :=
  match qc with
  | [] => []
  | (t, (n, g)) :: r =>
      (t, (Some (n / fst prev - 1), Some (g / snd prev - 1))) :: pct_change_from (n, g) r
  end.

Definition pct_change (qc : series (Q * Q)) : series (option Q * option Q) :=
  match qc with
  | [] => []
  | (t, c) :: r => (t, (None, None)) :: pct_change_from c r
  end.

(** [idxmax(axis=1)] over [NIFTYBEES, GOLDBEES]: NaN is skipped, a tie
    goes to the first column, an all-NaN row gives NaN (pandas 2.x, with a
    FutureWarning). *)
Definition idxmax2 (row : option Q * option Q) : option symbol :=
  match row with
  | (Some n, Some g) => if Qle_bool g n then Some NIFTYBEES else Some GOLDBEES
  | (Some _, None) => Some NIFTYBEES
  | (None, Some _) => Some GOLDBEES
  | (None, None) => None
  end.

(** [winner = quarterly_returns.idxmax(axis=1)] *)
Definition winner (qc : series (Q * Q)) : series (option symbol) :=
  map (fun p => (fst p, idxmax2 (snd p))) (pct_change qc).

(** [winner_shifted = winner.shift(1).dropna()] *)
Definition winner_shifted (qc : series (Q * Q)) : series symbol :=
  dropna (shift1 (winner qc)).

(** [alloc_daily] right after the assignment loop, before [ffill()]. *)
Definition alloc_raw (idx : list Z) (winner : series (option symbol)) : list (option symbol) :=
  assign idx (dropna (shift1 winner)) (repeat None (length idx)).

(** Element-wise [ne] on an object series: NaN is unequal to everything,
    itself included. *)
Definition sym_ne (a b : option symbol) : bool :=
  match a, b with
  | Some x, Some y => negb (symbol_eqb x y)
  | _, _ => true
  end.

(** [switch_mask = alloc_daily.ne(alloc_daily.shift(1))] followed by
    [switch_mask.iloc[0] = True] (an empty series, where [iloc[0]]
    raises, is not reached: the script has already read [df.index[0]]). *)
Definition switch_mask (alloc : list (option symbol)) : list bool :=
  match alloc with
  | [] => []
  | _ :: r => true :: map (fun p => sym_ne (fst p) (snd p)) (combine r alloc)
  end.

(** [target_on_switch = weights.where(switch_mask, np.nan)]; a NaN row is
    [None]. *)
Definition target_on_switch (idx : list Z) (winner : series (option symbol))
  : list (option (Q * Q)) :=
  map (fun p : (Q * Q) * bool => if snd p then Some (fst p) else None)
      (combine (weights idx winner) (switch_mask (alloc_daily idx winner))).

(** [rebalance_count = switch_mask.sum()] *)
Definition rebalance_count (idx : list Z) (winner : series (option symbol)) : nat :=
  SeriesOps.count_true (switch_mask (alloc_daily idx winner)).

End Rebalance.

(* ------------------------------------------------------------------ *)
(** ** Slab sizing, signal counts and the signal log
       (niftybees_rsi_accumulation_backtest.py) *)
Module RsiSizing.
Import RsiAccumulation.

Definition INIT_CASH : Q := 1000000.

(** A value of [size_arr]: [np.inf] or an amount of cash. *)
Inductive size_val := Inf | Amount (a : Q).

(** The element of [buy_mask] / [exit_mask] at one bar. *)
Definition buy_at (b : bar15) : bool := rsi_valid b && rsi_lt b RSI_BUY_THRESHOLD.
Definition exit_at (b : bar15) : bool := rsi_valid b && rsi_gt b RSI_EXIT_THRESHOLD.

(** [if rsi_val >= 50: ... elif rsi_val >= 30: ... else: ...]; a NaN
    fails both comparisons. *)
Definition slab_amount (rsi_val : option Q) : Q :=
  match rsi_val with
  | Some r =>
      if Qle_bool 50 r then INIT_CASH * (5 # 100)
      else if Qle_bool 30 r then INIT_CASH * (10 # 100)
      else INIT_CASH * (20 # 100)
  | None => INIT_CASH * (20 # 100)
  end.

(** The slab counter the same branch increments: 0 for "RSI 50-68 (5%)",
    1 for "RSI 30-50 (10%)", 2 for "RSI <30 (20%)". *)
Definition slab_index (rsi_val : option Q) : nat :=
  match rsi_val with
  | Some r => if Qle_bool 50 r then 0%nat else if Qle_bool 30 r then 1%nat else 2%nat
  | None => 2%nat
  end.

(** [size_arr = pd.Series(np.inf, ...)], then [size_arr.loc[dt] = ...] for
    every [dt] of [close_15m.index[buy_mask]] (the 15-minute index is
    unique). *)
Definition size_at (b : bar15) : size_val :=
  if buy_at b then Amount (slab_amount (rsi_mapped b)) else Inf.

Definition size_arr (bars : list bar15) : list size_val := map size_at bars.

(** The loop itself: [for dt in close_15m.index[buy_mask]:] visits the buy
    bars in index order; [rsi_val = rsi_mapped.loc[dt]] is the bar's RSI
    and [size_arr.loc[dt] = ...] writes the row of [dt] (the 15-minute
    index is unique, so that is one row, addressed here by its position),
    starting from [pd.Series(np.inf, index=close_15m.index)]. *)
Definition buy_rows (bars : list bar15) : list (nat * bar15) :=
  filter (fun p => buy_at (snd p)) (combine (seq 0 (length bars)) bars).

Definition size_arr_loop (bars : list bar15) : list size_val :=
  fold_left (fun arr p => DualMomentum.set_nth (fst p) (Amount (slab_amount (rsi_mapped (snd p)))) arr)
            (buy_rows bars) (repeat Inf (length bars)).

Definition bump (k : nat) (c : nat * nat * nat) : nat * nat * nat :=
  match k, c with
  | O, (a, b, d) => (S a, b, d)
  | S O, (a, b, d) => (a, S b, d)
  | _, (a, b, d) => (a, b, S d)
  end.

(** [slab_counts] after the loop. *)
Definition slab_counts (bars : list bar15) : nat * nat * nat :=
  fold_left (fun c b => if buy_at b then bump (slab_index (rsi_mapped b)) c else c)
            bars (0, 0, 0)%nat.

Definition total_fridays (bars : list bar15) : nat :=
  SeriesOps.count_true (map friday_315 bars).
Definition buy_count (bars : list bar15) : nat := SeriesOps.count_true (buy_mask bars).
Definition exit_count (bars : list bar15) : nat := SeriesOps.count_true (exit_mask bars).

(** [no_action = friday_315.sum() - buy_count - exit_count] (a Python
    int). *)
Definition no_action (bars : list bar15) : Z :=
  (Z.of_nat (total_fridays bars) - Z.of_nat (buy_count bars) - Z.of_nat (exit_count bars))%Z.

(** An action printed by the weekly signal log. *)
Inductive action := BUY (alloc_pct : size_val) | EXIT | HOLD.

(** [size_arr.loc[dt] / INIT_CASH * 100] *)
Definition alloc_pct_of (s : size_val) : size_val :=
  match s with Inf => Inf | Amount a => Amount (a / INIT_CASH * 100) end.

(** One iteration of the log loop over [df_15m.index[friday_315]]: a NaN
    RSI is skipped ([continue]). *)
Definition log_at (b : bar15) : list action :=
  if friday_315 b then
    match rsi_mapped b with
    | None => []
    | Some _ =>
        [if buy_at b then BUY (alloc_pct_of (size_at b))
         else if exit_at b then EXIT else HOLD]
    end
  else [].

Definition signal_log (bars : list bar15) : list action := flat_map log_at bars.

Definition is_buy (a : action) : bool := match a with BUY _ => true | _ => false end.
Definition is_exit (a : action) : bool := match a with EXIT => true | _ => false end.

End RsiSizing.

(* ------------------------------------------------------------------ *)
(** ** Weekly RSI mapped to 15-minute bars
       (niftybees_rsi_accumulation_backtest.py) *)
Module RsiMapping.
Import DualMomentum.

(** [reindex(..., method="ffill")] on a monotonic index: the value stored
    at the last label [<= t] (a stored NaN included); NaN before the first
    label. *)
Fixpoint last_le {A} (acc : option A) (w : series (option A)) (t : Z) : option A :=
  match w with
  | [] => acc
  | (l, v) :: r => if (l <=? t)%Z then last_le v r t else acc
  end.

Definition reindex_ffill {A} (w : series (option A)) (t : Z) : option A := last_le None w t.

(** [rsi_mapped = rsi_weekly.shift(1).reindex(df_15m.index, method="ffill")],
    at one bar time [t]. *)
Definition rsi_mapped_at (rsi_weekly : series (option Q)) (t : Z) : option Q :=
  reindex_ffill (shift1 rsi_weekly) t.

End RsiMapping.

(* ------------------------------------------------------------------ *)
(** ** Start of a period-wise CAGR window (buy_hold_75_25_backtest.py)

    Timestamps are day numbers ([Z]); the daily index is sorted. *)
Module PeriodCagr.

(** [int(yrs * 365.25)]; [int] truncates, which is the floor for
    [yrs >= 0]. *)
Definition lookback_days (yrs : Z) : Z := Qfloor (inject_Z yrs * (36525 # 100)).

(** The outcome of one iteration of the loop over [periods]. *)
Inductive period_outcome :=
  | PeriodRow (start_idx : Z) (y_days : Z)  (** [y = y_days / 365.25] *)
  | Skipped                                 (** [mask.sum() == 0: continue] *)
  | IndexError.                             (** [close_prices.index[-1]] on an empty index *)

Definition period_start (idx : list Z) (yrs : Z) : period_outcome :=
  match idx with
  | [] => IndexError
  | d0 :: _ =>
      let last_date := last idx d0 in
      let lookback_date := (last_date - lookback_days yrs)%Z in
      match filter (fun d => (lookback_date <=? d)%Z) idx with
      | [] => Skipped
      | start_idx :: _ => PeriodRow start_idx (last_date - start_idx)%Z
      end
  end.

End PeriodCagr.

(* ------------------------------------------------------------------ *)
(** ** Concrete inputs for the ledger *)
Module Fixtures.
Import Ledger.

(** Two instruments under long-only rules with a fixed and a
    proportional fee; percent, quantity, close-out and target-percent
    intents. *)
Definition witness_bars : list bar :=
  [mk_bar 0 [100; 50] [Some (Percent (1 # 2)); Some (Quantity 3)];
   mk_bar 1 [110; 40] [None; Some (Value None)];
   mk_bar 2 [90; 45] [Some (TargetPercent 1); None]].

Definition witness_config : config :=
  mk_config (mk_fees (1 # 1000) 1) 1 1 LongOnly.

(** One instrument, one entry at 100% of equity, price 100 then 50. *)
Definition fee_bars : list bar :=
  [mk_bar 0 [100] [Some (SignalEntry 1)]; mk_bar 1 [50] [None]].

Definition fee_config : config :=
  mk_config (mk_fees (1 # 1000) 0) 1 1 LongOnly.

(** The same instrument, sized by a fixed quantity of 5 shares, then
    closed. *)
Definition fixed_qty_bars : list bar :=
  [mk_bar 0 [100] [Some (Quantity 5)]; mk_bar 1 [50] [Some (Value None)]].

(** A three-bar two-asset price panel for the buy-and-hold script. *)
Definition bh_tss : list Z := [1%Z; 2%Z; 3%Z].
Definition bh_closes : list (list Q) := [[10; 20]; [11; 21]; [9; 30]].

End Fixtures.

(* ================================================================== *)
(** * Properties *)

(* ------------------------------------------------------------------ *)
(** ** Drawdown *)
Module DrawdownFacts.
Import Drawdown.

Lemma Qmin_choice (x y : Q) : Qmin x y = x \/ Qmin x y = y.
Proof. unfold Qmin, GenericMinMax.gmin. destruct (x ?= y); auto. Qed.

Lemma fold_min_in (r : list Q) (d : Q) : In (fold_left Qmin r d) (d :: r).
Proof.
  revert d; induction r as [|a r IH]; intro d; simpl; [now left|].
  destruct (IH (Qmin d a)) as [H|H].
  - destruct (Qmin_choice d a) as [E|E]; rewrite <- H, E; auto.
  - auto.
Qed.

Lemma fold_min_le (r : list Q) (d : Q) :
  forall x, In x (d :: r) -> fold_left Qmin r d <= x.
Proof.
  revert d; induction r as [|a r IH]; intros d x Hx; simpl in *.
  - destruct Hx as [<-|[]]. apply Qle_refl.
  - destruct Hx as [<-|[<-|Hx]].
    + eapply Qle_trans; [apply IH; now left|apply Q.le_min_l].
    + eapply Qle_trans; [apply IH; now left|apply Q.le_min_r].
    + apply IH; now right.
Qed.

Lemma cummax_aux_bounds (l : list Q) (m : Q) :
  Forall (fun p => m <= snd p /\ fst p <= snd p) (combine l (cummax_aux m l)).
Proof.
  revert m; induction l as [|a l IH]; intro m; simpl; constructor.
  - simpl. split; [apply Q.le_max_l|apply Q.le_max_r].
  - eapply Forall_impl; [|apply IH].
    intros p [H1 H2]; split; [|exact H2].
    eapply Qle_trans; [apply Q.le_max_l|exact H1].
Qed.

Lemma ratio_minus_one_nonpos (e m : Q) : 0 < m -> e <= m -> e / m - 1 <= 0.
Proof.
  intros Hm He.
  assert (H : e / m <= 1) by (apply Qle_shift_div_r; [exact Hm|]; rewrite Qmult_1_l; exact He).
  apply (Qplus_le_l _ _ 1). ring_simplify. exact H.
Qed.

Lemma drawdown_nonpos (e0 : Q) (rest : list Q) :
  0 < e0 -> Forall (fun d => d <= 0) (drawdown (e0 :: rest)).
Proof.
  intro H0. unfold drawdown, cummax. simpl. constructor.
  - simpl. apply ratio_minus_one_nonpos; [exact H0|apply Qle_refl].
  - apply Forall_map. eapply Forall_impl; [|apply cummax_aux_bounds].
    intros [e m] [H1 H2]; simpl in *.
    apply ratio_minus_one_nonpos; [|exact H2].
    eapply Qlt_le_trans; [exact H0|exact H1].
Qed.

End DrawdownFacts.

(** C5: for an equity curve whose first value (the starting capital) is
    positive, the maximum drawdown is one of the drawdowns
    [equity_t / running_max_t - 1], is below every one of them, and is
    [<= 0]; the curve [100, 120, 90, 150] has maximum drawdown
    [(90 - 120) / 120 = -25%]. *)
Theorem max_drawdown_is_min_and_nonpositive :
  (forall (e0 : Q) (rest : list Q), 0 < e0 ->
     exists mdd, Drawdown.max_drawdown (e0 :: rest) = Some mdd
       /\ In mdd (Drawdown.drawdown (e0 :: rest))
       /\ (forall d, In d (Drawdown.drawdown (e0 :: rest)) -> mdd <= d)
       /\ mdd <= 0)
  /\ (exists mdd, Drawdown.max_drawdown [100; 120; 90; 150] = Some mdd
                  /\ mdd == (90 - 120) / 120 /\ mdd == -(25 # 100)).
Proof.
  split.
  - intros e0 rest H0.
    pose proof (DrawdownFacts.drawdown_nonpos e0 rest H0) as Hnp.
    unfold Drawdown.max_drawdown in *.
    destruct (Drawdown.drawdown (e0 :: rest)) as [|d r] eqn:E;
      [unfold Drawdown.drawdown in E; simpl in E; discriminate|].
    exists (fold_left Qmin r d). split; [reflexivity|].
    split; [apply DrawdownFacts.fold_min_in|].
    split; [apply DrawdownFacts.fold_min_le|].
    rewrite Forall_forall in Hnp. apply Hnp, DrawdownFacts.fold_min_in.
  - exists (-30 # 120). split; [reflexivity|]. split; reflexivity.
Qed.

Lemma max_drawdown_is_min_and_nonpositive_witness :
  0 < 100 /\
  exists mdd, Drawdown.max_drawdown [100; 120; 90; 150] = Some mdd
       /\ In mdd (Drawdown.drawdown [100; 120; 90; 150])
       /\ (forall d, In d (Drawdown.drawdown [100; 120; 90; 150]) -> mdd <= d)
       /\ mdd <= 0.
Proof.
  split; [reflexivity|].
  apply (proj1 max_drawdown_is_min_and_nonpositive 100 [120; 90; 150]).
  reflexivity.
Defined.

(* ------------------------------------------------------------------ *)
(** ** RSI accumulation masks *)

(** C8: at every 15-minute bar the buy mask ([rsi_mapped < 68] on a
    valid Friday 3:15 PM bar) and the exit mask ([rsi_mapped > 70] on a
    valid Friday 3:15 PM bar) are never both true; the two masks have the
    length of the bar series. *)
Theorem rsi_buy_exit_exclusive (bars : list RsiAccumulation.bar15) :
  length (RsiAccumulation.buy_mask bars) = length (RsiAccumulation.exit_mask bars)
  /\ Forall (fun p => ~ (fst p = true /\ snd p = true))
       (combine (RsiAccumulation.buy_mask bars) (RsiAccumulation.exit_mask bars)).
Proof.
  unfold RsiAccumulation.buy_mask, RsiAccumulation.exit_mask.
  split; [now rewrite !length_map|].
  induction bars as [|b bars IH]; simpl; constructor; [|exact IH].
  simpl. intros [H1 H2].
  apply andb_true_iff in H1 as [_ H1]. apply andb_true_iff in H2 as [_ H2].
  unfold RsiAccumulation.rsi_lt, RsiAccumulation.rsi_gt, RsiAccumulation.Qltb in *.
  destruct (RsiAccumulation.rsi_mapped b) as [r|]; [|discriminate].
  destruct (r ?= RsiAccumulation.RSI_BUY_THRESHOLD) eqn:E1; try discriminate.
  destruct (RsiAccumulation.RSI_EXIT_THRESHOLD ?= r) eqn:E2; try discriminate.
  apply Qlt_alt in E1. apply Qlt_alt in E2.
  unfold RsiAccumulation.RSI_BUY_THRESHOLD, RsiAccumulation.RSI_EXIT_THRESHOLD in *.
  assert (H : (70 : Q) < 68) by (eapply Qlt_trans; eassumption).
  discriminate H.
Qed.

(* ------------------------------------------------------------------ *)
(** ** Dual momentum weights *)
Module DualMomentumFacts.
Import DualMomentum.

Lemma length_set_nth {A} (n : nat) (v : A) (l : list A) : length (set_nth n v l) = length l.
Proof. revert n; induction l; intros [|n]; simpl; auto. Qed.

Lemma set_nth_some {A} (n : nat) (v : A) (l : list (option A)) :
  (n < length l)%nat -> existsb is_some (set_nth n (Some v) l) = true.
Proof.
  revert n; induction l as [|x l IH]; intros [|n] H; simpl in *; try lia; auto.
  rewrite IH by lia. apply orb_true_r.
Qed.

Lemma set_nth_keeps {A} (n : nat) (v : A) (l : list (option A)) :
  existsb is_some l = true -> existsb is_some (set_nth n (Some v) l) = true.
Proof.
  revert n; induction l as [|x l IH]; intros [|n] H; simpl in *; auto.
  apply orb_true_iff in H as [H|H]; rewrite ?H; auto.
  rewrite IH; [apply orb_true_r|exact H].
Qed.

Lemma length_assign idx ws alloc : length (assign idx ws alloc) = length alloc.
Proof.
  revert alloc; induction ws as [|[dt s] ws IH]; intro alloc; simpl; auto.
  rewrite IH. destruct (Nat.ltb _ _); auto using length_set_nth.
Qed.

Lemma assign_keeps idx ws alloc :
  existsb is_some alloc = true -> existsb is_some (assign idx ws alloc) = true.
Proof.
  revert alloc; induction ws as [|[dt s] ws IH]; intros alloc H; simpl; auto.
  apply IH. destruct (Nat.ltb _ _); auto using set_nth_keeps.
Qed.

Lemma assign_some idx ws alloc dt s :
  length alloc = length idx -> In (dt, s) ws ->
  (searchsorted_right idx dt < length idx)%nat ->
  existsb is_some (assign idx ws alloc) = true.
Proof.
  revert alloc; induction ws as [|[dt' s'] ws IH]; intros alloc Hl Hin Hp; simpl in *;
    [contradiction|].
  destruct Hin as [E|Hin].
  - inversion E; subst. apply assign_keeps.
    destruct (Nat.ltb_spec (searchsorted_right idx dt) (length idx)); [|lia].
    apply set_nth_some. lia.
  - apply IH; auto.
    destruct (Nat.ltb _ _); auto. now rewrite length_set_nth.
Qed.

Lemma ffill_keeps {A} (last : option A) (l : list (option A)) :
  existsb is_some l = true -> existsb is_some (ffill_from last l) = true.
Proof.
  revert last; induction l as [|[a|] l IH]; intros last H; simpl in *; auto.
  rewrite IH by exact H. apply orb_true_r.
Qed.

Lemma ffill_from_some_all {A} (a : A) (l : list (option A)) :
  Forall (fun o => is_some o = true) (ffill_from (Some a) l).
Proof.
  revert a; induction l as [|[b|] l IH]; intro a; simpl; constructor; auto.
Qed.

Lemma drop_leading_ffill {A} (l : list (option A)) :
  Forall (fun o => is_some o = true) (drop_leading_na (ffill_from None l)).
Proof.
  induction l as [|[a|] l IH]; simpl; auto.
  constructor; [reflexivity|apply ffill_from_some_all].
Qed.

Lemma alloc_daily_all_some idx winner dt s :
  In (dt, s) (dropna (shift1 winner)) ->
  (searchsorted_right idx dt < length idx)%nat ->
  Forall (fun o => is_some o = true) (alloc_daily idx winner).
Proof.
  intros Hin Hp. unfold alloc_daily, from_first_valid, ffill.
  rewrite (ffill_keeps None _ (assign_some idx _ _ dt s (repeat_length _ _) Hin Hp)).
  apply drop_leading_ffill.
Qed.

End DualMomentumFacts.

(** C9 (failing input): with a price history of two quarter ends, the
    quarterly winner [idxmax] has one entry and [winner.shift(1).dropna()]
    is empty, so no allocation is ever written; [alloc_daily] is all NaN,
    [alloc_daily.loc[alloc_daily.first_valid_index():]] ([.loc[None:]])
    keeps every row, every weight row is [(0.0, 0.0)] (no symbol holds the
    75% allocation), and [switch_mask] is [True] on every day, so each day
    is a "rebalance" printed as "Buy nan (75%)". *)
Lemma dual_momentum_weights_counterexample :
  DualMomentum.alloc_daily [1; 2; 3; 4; 5; 6]%Z
    (Rebalance.winner [(3%Z, (100, 50)); (6%Z, (110, 52))]) = repeat None 6
  /\ DualMomentum.weights [1; 2; 3; 4; 5; 6]%Z
       (Rebalance.winner [(3%Z, (100, 50)); (6%Z, (110, 52))]) = repeat (0, 0) 6
  /\ Rebalance.switch_mask (DualMomentum.alloc_daily [1; 2; 3; 4; 5; 6]%Z
       (Rebalance.winner [(3%Z, (100, 50)); (6%Z, (110, 52))])) = repeat true 6
  /\ exists row, In row (DualMomentum.weights [1; 2; 3; 4; 5; 6]%Z
                          (Rebalance.winner [(3%Z, (100, 50)); (6%Z, (110, 52))]))
       /\ fst row = 0 /\ snd row = 0 /\ ~ (fst row + snd row == DualMomentum.ALLOCATION).
Proof.
  split; [vm_compute; reflexivity|]. split; [vm_compute; reflexivity|].
  split; [vm_compute; reflexivity|].
  exists (0, 0). split; [vm_compute; auto|]. split; [reflexivity|]. split; [reflexivity|].
  vm_compute. discriminate.
Qed.

(** C9 (where the code meets the claim): as soon as one shifted quarter
    winner maps to a trading day of the index, every row of [weights] is
    [(0.75, 0.0)] or [(0.0, 0.75)], so exactly one symbol is weighted and
    the row sums to 0.75. *)
Theorem dual_momentum_weights_one_symbol
  (idx : list Z) (winner : DualMomentum.series (option DualMomentum.symbol))
  (dt : Z) (s : DualMomentum.symbol) :
  In (dt, s) (DualMomentum.dropna (DualMomentum.shift1 winner)) ->
  (DualMomentum.searchsorted_right idx dt < length idx)%nat ->
  Forall (fun w => ((fst w = DualMomentum.ALLOCATION /\ snd w = 0)
                    \/ (fst w = 0 /\ snd w = DualMomentum.ALLOCATION))
                   /\ fst w + snd w == DualMomentum.ALLOCATION)
         (DualMomentum.weights idx winner).
Proof.
  intros Hin Hp. unfold DualMomentum.weights.
  apply Forall_map.
  eapply Forall_impl; [|apply (DualMomentumFacts.alloc_daily_all_some idx winner dt s Hin Hp)].
  intros [[|]|] H; simpl in *; try discriminate;
    (split; [auto|reflexivity]).
Qed.

Lemma dual_momentum_weights_one_symbol_witness :
  In (4%Z, DualMomentum.GOLDBEES)
     (DualMomentum.dropna (DualMomentum.shift1
        [(0%Z, None); (2%Z, Some DualMomentum.GOLDBEES); (4%Z, Some DualMomentum.NIFTYBEES)]))
  /\ (DualMomentum.searchsorted_right [1; 2; 3; 4; 5; 6]%Z 4 < 6)%nat
  /\ Forall (fun w => ((fst w = DualMomentum.ALLOCATION /\ snd w = 0)
                       \/ (fst w = 0 /\ snd w = DualMomentum.ALLOCATION))
                      /\ fst w + snd w == DualMomentum.ALLOCATION)
       (DualMomentum.weights [1; 2; 3; 4; 5; 6]%Z
          [(0%Z, None); (2%Z, Some DualMomentum.GOLDBEES); (4%Z, Some DualMomentum.NIFTYBEES)]).
Proof.
  assert (Hin : In (4%Z, DualMomentum.GOLDBEES)
     (DualMomentum.dropna (DualMomentum.shift1
        [(0%Z, None); (2%Z, Some DualMomentum.GOLDBEES); (4%Z, Some DualMomentum.NIFTYBEES)])))
    by (simpl; auto).
  assert (Hp : (DualMomentum.searchsorted_right [1; 2; 3; 4; 5; 6]%Z 4 < 6)%nat)
    by (simpl; lia).
  split; [exact Hin|]. split; [exact Hp|].
  exact (dual_momentum_weights_one_symbol _ _ 4%Z DualMomentum.GOLDBEES Hin Hp).
Defined.

(* ------------------------------------------------------------------ *)
(** ** CAGR *)
(** C6 (as stated, refuted): with growth rate [g = -1] the end value
    [v0 * (1 + g) ^ y] is [0], the guard returns [0.0], and the round
    trip does not give back [g]. *)
Lemma calc_cagr_roundtrip_counterexample :
  Cagr.calc_cagr 1 (1 * (1 + -1) ^ 1) 1 = 0%R /\ Cagr.calc_cagr 1 (1 * (1 + -1) ^ 1) 1 <> (-1)%R.
Proof.
  assert (H : Cagr.calc_cagr 1 (1 * (1 + -1) ^ 1) 1 = 0%R).
  { unfold Cagr.calc_cagr.
    destruct (Rle_dec 1 0) as [H|_]; [lra|].
    destruct (Rle_dec (1 * (1 + -1) ^ 1) 0) as [_|H]; [reflexivity|].
    exfalso. apply H. simpl. lra. }
  split; [exact H|]. rewrite H. lra.
Qed.

(** C6 (amended): for [v0 > 0], growth rate [g > -1] and [y > 0] years,
    [calc_cagr v0 (v0 * (1 + g) ^ y) y = g] exactly in real arithmetic;
    and [calc_cagr] returns [0] whenever [v0 <= 0], [v1 <= 0] or
    [years <= 0]. *)
Theorem calc_cagr_roundtrip :
  (forall v0 g y : R, (0 < v0)%R -> (-1 < g)%R -> (0 < y)%R ->
     Cagr.calc_cagr v0 (v0 * Rpower (1 + g) y) y = g)
  /\ (forall v0 v1 y : R, (v0 <= 0 \/ v1 <= 0 \/ y <= 0)%R -> Cagr.calc_cagr v0 v1 y = 0%R).
Proof.
  split.
  - intros v0 g y Hv Hg Hy. unfold Cagr.calc_cagr.
    assert (Hb : (0 < 1 + g)%R) by lra.
    assert (Hp : (0 < Rpower (1 + g) y)%R) by (unfold Rpower; apply exp_pos).
    destruct (Rle_dec v0 0) as [H|_]; [lra|].
    destruct (Rle_dec (v0 * Rpower (1 + g) y) 0) as [H|_];
      [pose proof (Rmult_lt_0_compat _ _ Hv Hp); lra|].
    destruct (Rle_dec y 0) as [H|_]; [lra|].
    replace (v0 * Rpower (1 + g) y / v0)%R with (Rpower (1 + g) y) by (field; lra).
    rewrite Rpower_mult.
    replace (y * (1 / y))%R with 1%R by (field; lra).
    rewrite Rpower_1 by exact Hb. ring.
  - intros v0 v1 y H. unfold Cagr.calc_cagr.
    destruct (Rle_dec v0 0); [reflexivity|].
    destruct (Rle_dec v1 0); [reflexivity|].
    destruct (Rle_dec y 0); [reflexivity|].
    exfalso. lra.
Qed.

Lemma calc_cagr_roundtrip_witness :
  Cagr.calc_cagr 100 (100 * Rpower (1 + 1 / 10) 2) 2 = (1 / 10)%R
  /\ Cagr.calc_cagr 0 5 1 = 0%R.
Proof.
  split.
  - apply (proj1 calc_cagr_roundtrip); lra.
  - apply (proj2 calc_cagr_roundtrip). left. lra.
Defined.

(* ------------------------------------------------------------------ *)
(** ** Signal normalizer *)
Module SignalFacts.
Import Signals.

Lemma exrem_scan_alternates :
  forall (buy sell : list bool) e x last,
  length buy = length sell -> disjoint buy sell = true -> flags_agree e x last ->
  alternating_opt last (events (exrem_from e buy sell) (exrem_from x sell buy)) = true
  /\ disjoint (exrem_from e buy sell) (exrem_from x sell buy) = true.
Proof.
  intro buy; induction buy as [|b buy IH]; intros [|s sell] e x last Hl Hd Hf; simpl in *;
    try discriminate; [destruct last as [[|]|]; simpl; auto|].
  injection Hl as Hl.
  apply andb_true_iff in Hd as [Hbs Hd].
  destruct last as [[|]|]; destruct Hf as [-> ->]; destruct b, s; simpl in *;
    try discriminate;
    first [ apply (IH sell _ _ (Some Entry)); simpl; auto
          | apply (IH sell _ _ (Some Exit)); simpl; auto
          | apply (IH sell _ _ None); simpl; auto ].
Qed.

End SignalFacts.

(** C4 (as stated, refuted): [ta.exrem] is applied to each series on its
    own, so (i) buy [false; true] / sell [true; false] yields an exit on
    bar 0 before any entry, and (ii) buy [true; true; false] /
    sell [true; false; true] (a bar with both candidates) yields
    entry, exit, exit. *)
Lemma exrem_alternation_counterexample :
  Signals.events (Signals.entries [false; true] [true; false])
                 (Signals.exits [false; true] [true; false]) = [Signals.Exit; Signals.Entry]
  /\ Signals.alternating_from_entry
       (Signals.events (Signals.entries [false; true] [true; false])
                       (Signals.exits [false; true] [true; false])) = false
  /\ Signals.events (Signals.entries [true; true; false] [true; false; true])
                    (Signals.exits [true; true; false] [true; false; true])
     = [Signals.Entry; Signals.Exit; Signals.Exit]
  /\ Signals.alternating
       (Signals.events (Signals.entries [true; true; false] [true; false; true])
                       (Signals.exits [true; true; false] [true; false; true])) = false.
Proof. repeat split; reflexivity. Qed.

(** C4 (amended): for candidate series of equal length in which no bar
    carries both a candidate entry and a candidate exit, the series
    [entries = exrem(buy, sell)] and [exits = exrem(sell, buy)] never mark
    the same bar and their combined events never contain two consecutive
    events of the same type; the first event may be an exit. *)
Theorem exrem_entries_exits_alternate (buy sell : list bool) :
  length buy = length sell -> Signals.disjoint buy sell = true ->
  Signals.alternating (Signals.events (Signals.entries buy sell) (Signals.exits buy sell)) = true
  /\ Signals.disjoint (Signals.entries buy sell) (Signals.exits buy sell) = true.
Proof.
  intros Hl Hd.
  exact (SignalFacts.exrem_scan_alternates buy sell false false None Hl Hd (conj eq_refl eq_refl)).
Qed.

Lemma exrem_entries_exits_alternate_witness :
  length [false; true; false; false; true] = length [false; false; true; true; false]
  /\ Signals.disjoint [false; true; false; false; true] [false; false; true; true; false] = true
  /\ Signals.alternating
       (Signals.events (Signals.entries [false; true; false; false; true] [false; false; true; true; false])
                       (Signals.exits [false; true; false; false; true] [false; false; true; true; false])) = true
  /\ Signals.disjoint
       (Signals.entries [false; true; false; false; true] [false; false; true; true; false])
       (Signals.exits [false; true; false; false; true] [false; false; true; true; false]) = true.
Proof.
  split; [reflexivity|]. split; [reflexivity|].
  apply exrem_entries_exits_alternate; reflexivity.
Defined.

(* ------------------------------------------------------------------ *)
(** ** Walk-forward optimizer *)
Module WalkForwardFacts.
Import WalkForward.

Lemma firstn_agree {A} (k : nat) (l1 l2 : list A) :
  (forall i, (i < k)%nat -> nth_error l1 i = nth_error l2 i) -> firstn k l1 = firstn k l2.
Proof.
  revert l1 l2; induction k as [|k IH]; intros [|a l1] [|b l2] H; simpl; auto.
  - specialize (H 0%nat ltac:(lia)); discriminate.
  - specialize (H 0%nat ltac:(lia)); discriminate.
  - pose proof (H 0%nat ltac:(lia)) as E; simpl in E; injection E as ->.
    f_equal. apply IH. intros i Hi. apply (H (S i)). lia.
Qed.

Lemma slice_prefix {A} (l : list A) (off train : nat) :
  slice A l off (off + train) = skipn off (firstn (off + train) l).
Proof.
  unfold slice. replace (off + train - off)%nat with train by lia.
  apply firstn_skipn_comm.
Qed.

Example scenario_D : windows 10 5 5 20 = [0; 5]%nat.
Proof. reflexivity. Qed.

End WalkForwardFacts.

(** C3: the parameter set chosen for a walk-forward window at offset
    [off] is a function of the bars before the test-window start
    [off + train] only: two inputs that agree on every bar before the
    test start yield the same selection, whatever the test slice holds. *)
Theorem walk_forward_no_lookahead
  (params bar : Type) (in_sample_sharpe : params -> list bar -> option Q)
  (grid : list params) (bars1 bars2 : list bar) (train test step off : nat) :
  In off (WalkForward.windows train test step (length bars1)) ->
  (forall i, (i < off + train)%nat -> nth_error bars1 i = nth_error bars2 i) ->
  WalkForward.select params bar in_sample_sharpe grid bars1 train off
  = WalkForward.select params bar in_sample_sharpe grid bars2 train off.
Proof.
  intros _ Hagree. unfold WalkForward.select.
  rewrite !WalkForwardFacts.slice_prefix.
  rewrite (WalkForwardFacts.firstn_agree (off + train) bars1 bars2 Hagree).
  reflexivity.
Qed.

Lemma walk_forward_no_lookahead_witness :
  In 1%nat (WalkForward.windows 2 1 1 (length [1; 2; 3; 4]))
  /\ (forall i, (i < 1 + 2)%nat -> nth_error [1; 2; 3; 4] i = nth_error [1; 2; 3; 9] i)
  /\ WalkForward.select nat Q (fun p l => Some (fold_right Qplus 0 l * inject_Z (Z.of_nat p)))
       [1; 2; 3]%nat [1; 2; 3; 4] 2 1
     = WalkForward.select nat Q (fun p l => Some (fold_right Qplus 0 l * inject_Z (Z.of_nat p)))
       [1; 2; 3]%nat [1; 2; 3; 9] 2 1.
Proof.
  assert (Hw : In 1%nat (WalkForward.windows 2 1 1 (length [1; 2; 3; 4]))) by (simpl; auto).
  assert (Ha : forall i, (i < 1 + 2)%nat -> nth_error [1; 2; 3; 4] i = nth_error [1; 2; 3; 9] i).
  { intros [|[|[|i]]] Hi; simpl; try reflexivity; lia. }
  split; [exact Hw|]. split; [exact Ha|].
  exact (walk_forward_no_lookahead nat Q _ [1; 2; 3]%nat _ _ 2 1 1 1 Hw Ha).
Defined.

(* ------------------------------------------------------------------ *)
(** ** Portfolio engine *)
Module LedgerFacts.
Import Ledger.

Ltac case_order H :=
  repeat match type of H with
  | context [if ?c then _ else _] => destruct c
  | context [match ?m with _ => _ end] =>
      lazymatch m with
      | direction_of _ => destruct m
      | max_affordable _ _ _ _ _ => destruct m
      end
  end.

Lemma exec_order_state cfg st cs i k st1 f w :
  exec_order cfg st cs i k = (st1, f, w) ->
  st1 = match f with
        | None => st
        | Some fl => apply_fill (fees cfg) st (f_inst fl) (f_qty fl) (f_price fl)
        end.
Proof.
  intro H. unfold exec_order, filled in H. cbv zeta in H.
  case_order H; inversion H; subst; reflexivity.
Qed.

Lemma exec_seq_state cfg cs os order :
  forall st st' fs ws, exec_seq cfg cs os st order = (st', fs, ws) ->
  st' = fold_left (fun s f => apply_fill (fees cfg) s (f_inst f) (f_qty f) (f_price f)) fs st.
Proof.
  induction order as [|i order IH]; intros st st' fs ws H; simpl in H.
  - inversion H; subst; reflexivity.
  - destruct (nth i os None) as [k|]; [|eapply IH; exact H].
    destruct (exec_order cfg st cs i k) as [[st1 f] w] eqn:E1.
    destruct (exec_seq cfg cs os st1 order) as [[st2 fs2] ws2] eqn:E2.
    inversion H; subst. rewrite fold_left_app.
    apply exec_order_state in E1. apply IH in E2. subst.
    destruct f; reflexivity.
Qed.

Lemma fold_fills_replay fm fs st :
  fold_left (fun s f => apply_fill fm s (f_inst f) (f_qty f) (f_price f)) fs st
  = replay fm st (map fill_key fs).
Proof. revert st; induction fs as [|f fs IH]; intro st; simpl; auto. Qed.

Lemma max_affordable_spec cfg st sgn p n :
  match max_affordable cfg st sgn p n with
  | Some q => exists m, (1 <= m <= n)%nat
      /\ q = (sgn * Z.of_nat m * Zpos (size_granularity cfg))%Z
      /\ lot_ok cfg st q p = true
      /\ forall m', (m < m' <= n)%nat ->
           lot_ok cfg st (sgn * Z.of_nat m' * Zpos (size_granularity cfg)) p = false
  | None => forall m, (1 <= m <= n)%nat ->
      lot_ok cfg st (sgn * Z.of_nat m * Zpos (size_granularity cfg)) p = false
  end.
Proof.
  induction n as [|n IH]; cbn [max_affordable].
  - intros m Hm; lia.
  - destruct (lot_ok cfg st (sgn * Z.of_nat (S n) * Zpos (size_granularity cfg)) p) eqn:E.
    + exists (S n). split; [lia|]. split; [reflexivity|]. split; [exact E|].
      intros m' Hm'; lia.
    + destruct (max_affordable cfg st sgn p n) as [q|].
      * destruct IH as (m & Hm & Hq & Hok & Hmax).
        exists m. split; [lia|]. split; [exact Hq|]. split; [exact Hok|].
        intros m' Hm'. destruct (Nat.eq_dec m' (S n)) as [->|Hne]; [exact E|].
        apply Hmax; lia.
      * intros m Hm. destruct (Nat.eq_dec m (S n)) as [->|Hne]; [exact E|].
        apply IH; lia.
Qed.

Lemma lot_ok_cash cfg st q p : lot_ok cfg st q p = true -> 0 <= cash_after (fees cfg) st q p.
Proof. unfold lot_ok. intro H. apply andb_true_iff in H as [_ H]. now apply Qle_bool_iff. Qed.

Lemma exec_order_cash_nonneg cfg st cs i k st1 f w :
  direction_of cfg = LongOnly -> 0 <= cash st ->
  exec_order cfg st cs i k = (st1, f, w) -> 0 <= cash st1.
Proof.
  intros Hd Hc H. unfold exec_order, filled in H. cbv zeta in H. rewrite Hd in H.
  destruct (_ =? 0)%Z; [inversion H; subst; exact Hc|].
  destruct (_ <? _)%Z; [inversion H; subst; exact Hc|].
  destruct (Qle_bool 0 _) eqn:Eb;
    [inversion H; subst; simpl; now apply Qle_bool_iff|].
  match type of H with
  | context [max_affordable ?c ?s ?g ?p ?n] =>
      pose proof (max_affordable_spec c s g p n) as Hs; destruct (max_affordable c s g p n)
  end.
  - inversion H; subst; simpl. destruct Hs as (m & _ & -> & Hok & _).
    now apply lot_ok_cash.
  - inversion H; subst; exact Hc.
Qed.

Lemma exec_seq_cash_nonneg cfg cs os order :
  direction_of cfg = LongOnly ->
  forall st st' fs ws, 0 <= cash st -> exec_seq cfg cs os st order = (st', fs, ws) ->
  0 <= cash st'.
Proof.
  intro Hd. induction order as [|i order IH]; intros st st' fs ws Hc H; simpl in H.
  - inversion H; subst; exact Hc.
  - destruct (nth i os None) as [k|]; [|eapply IH; eassumption].
    destruct (exec_order cfg st cs i k) as [[st1 f] w] eqn:E1.
    destruct (exec_seq cfg cs os st1 order) as [[st2 fs2] ws2] eqn:E2.
    inversion H; subst.
    eapply IH; [|exact E2]. eapply exec_order_cash_nonneg; eassumption.
Qed.

Lemma run_length cfg st bars : length (run cfg st bars) = length bars.
Proof.
  revert st; induction bars as [|b bars IH]; intro st; simpl; auto.
  destruct (process_bar cfg st b) as [[st' fs] ws]; simpl; now rewrite IH.
Qed.

Lemma run_cash_nonneg cfg bars :
  direction_of cfg = LongOnly ->
  forall st, 0 <= cash st -> Forall (fun r => 0 <= r_cash r) (run cfg st bars).
Proof.
  intro Hd; induction bars as [|b bars IH]; intros st Hc; simpl; [constructor|].
  destruct (process_bar cfg st b) as [[st' fs] ws] eqn:E.
  unfold process_bar in E.
  assert (Hc' : 0 <= cash st') by (eapply exec_seq_cash_nonneg; eassumption).
  constructor; [exact Hc'|apply IH; exact Hc'].
Qed.

Lemma run_equity_identity cfg bars :
  forall st, Forall2 (fun b r => r_equity r = r_cash r + dot (r_pos r) (closes b)) bars (run cfg st bars).
Proof.
  induction bars as [|b bars IH]; intro st; simpl; [constructor|].
  destruct (process_bar cfg st b) as [[st' fs] ws]. constructor; [reflexivity|apply IH].
Qed.

Lemma exec_order_clip cfg st cs i k q0 :
  direction_of cfg = LongOnly ->
  requested_qty cfg k (equity st cs) (nth i (positions st) 0%Z) (nth i cs 0) = q0 ->
  q0 <> 0%Z -> (min_size cfg <= Z.abs q0)%Z -> cash_after (fees cfg) st q0 (nth i cs 0) < 0 ->
  let g := Zpos (size_granularity cfg) in
  let n := Z.to_nat (Z.abs q0 / g) in
  (exists m, (1 <= m <= n)%nat
     /\ exec_order cfg st cs i k
        = filled cfg st i (Z.sgn q0 * Z.of_nat m * g)%Z (nth i cs 0) (Some (Clipped i))
     /\ 0 <= cash_after (fees cfg) st (Z.sgn q0 * Z.of_nat m * g)%Z (nth i cs 0)
     /\ forall m', (m < m' <= n)%nat ->
          lot_ok cfg st (Z.sgn q0 * Z.of_nat m' * g)%Z (nth i cs 0) = false)
  \/ (exec_order cfg st cs i k = (st, None, Some (Unaffordable i))
      /\ forall m, (1 <= m <= n)%nat ->
           lot_ok cfg st (Z.sgn q0 * Z.of_nat m * g)%Z (nth i cs 0) = false).
Proof.
  intros Hd Hq H0 Hmin Hneg g n.
  unfold exec_order. cbv zeta. rewrite Hq, Hd.
  destruct (Z.eqb_spec q0 0) as [E|_]; [contradiction|].
  destruct (Z.ltb_spec (Z.abs q0) (min_size cfg)) as [E|_]; [lia|].
  destruct (Qle_bool 0 (cash_after (fees cfg) st q0 (nth i cs 0))) eqn:Eb.
  { apply Qle_bool_iff in Eb. exfalso. exact (Qlt_not_le _ _ Hneg Eb). }
  pose proof (max_affordable_spec cfg st (Z.sgn q0) (nth i cs 0) n) as Hs.
  subst g n.
  destruct (max_affordable _ _ _ _ _) as [q|].
  - left. destruct Hs as (m & Hm & -> & Hok & Hmax).
    exists m. split; [exact Hm|]. split; [reflexivity|].
    split; [now apply lot_ok_cash|exact Hmax].
  - right. split; [reflexivity|exact Hs].
Qed.

Lemma fee_zero_le fm q p :
  0 <= proportional_fee fm -> 0 <= fixed_fee fm -> fee (mk_fees 0 0) q p <= fee fm q p.
Proof.
  intros Hp Hf. unfold fee. cbn [proportional_fee fixed_fee].
  destruct (q =? 0)%Z; [apply Qle_refl|].
  rewrite Qmult_0_l, Qplus_0_l.
  apply (Qplus_le_compat 0 _ 0 _); [|exact Hf].
  apply Qmult_le_0_compat; [exact Hp|apply Qabs_nonneg].
Qed.

Lemma replay_compare fm keys :
  0 <= proportional_fee fm -> 0 <= fixed_fee fm ->
  forall s1 s2, positions s1 = positions s2 -> cash s1 <= cash s2 ->
  positions (replay fm s1 keys) = positions (replay (mk_fees 0 0) s2 keys)
  /\ cash (replay fm s1 keys) <= cash (replay (mk_fees 0 0) s2 keys).
Proof.
  intros Hp Hf. induction keys as [|[[i q] p] keys IH]; intros s1 s2 Hpos Hc; simpl; auto.
  apply IH; simpl.
  - now rewrite Hpos.
  - unfold cash_after. apply Qplus_le_compat; [exact Hc|].
    apply Qopp_le_compat. apply Qplus_le_compat; [apply Qle_refl|].
    now apply fee_zero_le.
Qed.

Lemma run_compare cfg bars :
  0 <= proportional_fee (fees cfg) -> 0 <= fixed_fee (fees cfg) ->
  forall s1 s2, positions s1 = positions s2 -> cash s1 <= cash s2 ->
  same_fills (run cfg s1 bars) (run (zero_fee cfg) s2 bars) ->
  Forall2 (fun r1 r2 => r_equity r1 <= r_equity r2) (run cfg s1 bars) (run (zero_fee cfg) s2 bars).
Proof.
  intros Hp Hf. induction bars as [|b bars IH]; intros s1 s2 Hpos Hc Hs; simpl in *;
    [constructor|].
  destruct (process_bar cfg s1 b) as [[s1' fs1] ws1] eqn:E1.
  destruct (process_bar (zero_fee cfg) s2 b) as [[s2' fs2] ws2] eqn:E2.
  unfold same_fills in Hs. inversion Hs as [|r1 r2 t1 t2 Hk Ht]; subst; simpl in Hk.
  unfold process_bar in E1, E2.
  apply exec_seq_state in E1. apply exec_seq_state in E2.
  rewrite fold_fills_replay in E1, E2. rewrite <- Hk in E2. simpl in E2.
  destruct (replay_compare (fees cfg) (map fill_key fs1) Hp Hf s1 s2 Hpos Hc) as [Hpos' Hc'].
  rewrite <- E1, <- E2 in Hpos', Hc'.
  constructor.
  - simpl. unfold equity. rewrite Hpos'. apply Qplus_le_compat; [exact Hc'|apply Qle_refl].
  - apply IH; assumption.
Qed.

Lemma Forall2_rev_head {A B} (P : A -> B -> Prop) l1 l2 :
  Forall2 P l1 l2 ->
  match rev l1, rev l2 with
  | [], [] => True
  | a :: _, b :: _ => P a b
  | _, _ => False
  end.
Proof.
  induction 1 as [|x y l1 l2 Hxy H IH]; simpl; auto.
  destruct (rev l1) as [|a r1], (rev l2) as [|b r2]; simpl; tauto.
Qed.

Lemma exec_seq_no_orders cfg cs os order :
  (forall i, nth i os None = None) ->
  forall st, exec_seq cfg cs os st order = (st, [], []).
Proof.
  intro Hn. induction order as [|i order IH]; intro st; simpl; auto.
  rewrite Hn. apply IH.
Qed.

Lemma run_no_orders cfg bars :
  Forall (fun b => forall i, nth i (orders b) None = None) bars ->
  forall st, Forall (fun r => r_fills r = [] /\ r_pos r = positions st) (run cfg st bars).
Proof.
  induction 1 as [|b bars Hb H IH]; intro st; simpl; [constructor|].
  unfold process_bar. rewrite (exec_seq_no_orders _ _ _ _ Hb st).
  constructor; [simpl; auto|apply IH].
Qed.

End LedgerFacts.

(** C1: in every run, every bar's recorded equity is the cash balance
    plus [Σ position_quantity × close] at that bar: the equity series is
    read off cash and positions, one record per bar. *)
Theorem equity_accounting_identity (cfg : Ledger.config) (init : Q) (n : nat)
  (bars : list Ledger.bar) (tr : list Ledger.record) :
  Ledger.simulate cfg init n bars = inr tr ->
  Forall2 (fun b r => Ledger.r_equity r = Ledger.r_cash r + Ledger.dot (Ledger.r_pos r) (Ledger.closes b))
          bars tr.
Proof.
  unfold Ledger.simulate. destruct (Ledger.validate cfg n bars); intro H; inversion H.
  apply LedgerFacts.run_equity_identity.
Qed.

Lemma equity_accounting_identity_witness :
  Ledger.simulate Fixtures.witness_config 1000 2 Fixtures.witness_bars
  = inr (Ledger.run Fixtures.witness_config (Ledger.initial_state 1000 2) Fixtures.witness_bars)
  /\ Forall2 (fun b r => Ledger.r_equity r = Ledger.r_cash r + Ledger.dot (Ledger.r_pos r) (Ledger.closes b))
       Fixtures.witness_bars (Ledger.run Fixtures.witness_config (Ledger.initial_state 1000 2) Fixtures.witness_bars).
Proof.
  assert (H : Ledger.simulate Fixtures.witness_config 1000 2 Fixtures.witness_bars
              = inr (Ledger.run Fixtures.witness_config (Ledger.initial_state 1000 2) Fixtures.witness_bars))
    by reflexivity.
  split; [exact H|]. exact (equity_accounting_identity _ _ _ _ _ H).
Defined.

(** C2: in a long-only run that passed the fail-fast checks, the
    simulation always completes with one record per bar (no sizing
    condition is an error) and the cash balance is [>= 0] at every bar;
    an order whose cost would overdraw cash is reduced to the largest
    affordable lot count (below the requested one) with a [Clipped]
    warning, or, if no lot is affordable, skipped with an [Unaffordable]
    warning. *)
Theorem long_only_cash_never_negative :
  (forall (cfg : Ledger.config) (init : Q) (n : nat) (bars : list Ledger.bar),
     Ledger.direction_of cfg = Ledger.LongOnly -> 0 <= init ->
     Ledger.validate cfg n bars = None ->
     exists tr, Ledger.simulate cfg init n bars = inr tr
       /\ length tr = length bars
       /\ Forall (fun r => 0 <= Ledger.r_cash r) tr)
  /\ (forall cfg st cs i k q0,
     Ledger.direction_of cfg = Ledger.LongOnly ->
     Ledger.requested_qty cfg k (Ledger.equity st cs) (nth i (Ledger.positions st) 0%Z) (nth i cs 0) = q0 ->
     q0 <> 0%Z -> (Ledger.min_size cfg <= Z.abs q0)%Z ->
     Ledger.cash_after (Ledger.fees cfg) st q0 (nth i cs 0) < 0 ->
     let g := Zpos (Ledger.size_granularity cfg) in
     let lots := Z.to_nat (Z.abs q0 / g) in
     (exists m, (1 <= m <= lots)%nat
        /\ Ledger.exec_order cfg st cs i k
           = Ledger.filled cfg st i (Z.sgn q0 * Z.of_nat m * g)%Z (nth i cs 0) (Some (Ledger.Clipped i))
        /\ 0 <= Ledger.cash_after (Ledger.fees cfg) st (Z.sgn q0 * Z.of_nat m * g)%Z (nth i cs 0)
        /\ forall m', (m < m' <= lots)%nat ->
             Ledger.lot_ok cfg st (Z.sgn q0 * Z.of_nat m' * g)%Z (nth i cs 0) = false)
     \/ (Ledger.exec_order cfg st cs i k = (st, None, Some (Ledger.Unaffordable i))
         /\ forall m, (1 <= m <= lots)%nat ->
              Ledger.lot_ok cfg st (Z.sgn q0 * Z.of_nat m * g)%Z (nth i cs 0) = false)).
Proof.
  split.
  - intros cfg init n bars Hd Hi Hv.
    exists (Ledger.run cfg (Ledger.initial_state init n) bars).
    unfold Ledger.simulate. rewrite Hv.
    split; [reflexivity|]. split; [apply LedgerFacts.run_length|].
    apply LedgerFacts.run_cash_nonneg; [exact Hd|exact Hi].
  - intros cfg st cs i k q0 Hd Hq H0 Hm Hneg.
    exact (LedgerFacts.exec_order_clip cfg st cs i k q0 Hd Hq H0 Hm Hneg).
Qed.

Lemma long_only_cash_never_negative_witness :
  exists tr, Ledger.simulate Fixtures.witness_config 1000 2 Fixtures.witness_bars = inr tr
    /\ length tr = length Fixtures.witness_bars
    /\ Forall (fun r => 0 <= Ledger.r_cash r) tr.
Proof.
  apply (proj1 long_only_cash_never_negative);
    [reflexivity | vm_compute; intro Hc; discriminate Hc | reflexivity].
Defined.

(** C7 (as stated, refuted): one entry at bar 0 sized at 100% of equity,
    1000 of cash, price 100 then 50.  Without fees 10 shares are bought
    and the run ends at 500 (-50%); with a 0.1% fee 10 shares are
    unaffordable, the order is clipped to 9 shares and the run ends at
    549.1 (-45.09%), a higher total return. *)
Lemma zero_fee_dominance_counterexample :
  exists tr_fee tr_zero,
    Ledger.simulate Fixtures.fee_config 1000 1 Fixtures.fee_bars = inr tr_fee
    /\ Ledger.simulate (Ledger.zero_fee Fixtures.fee_config) 1000 1 Fixtures.fee_bars = inr tr_zero
    /\ Ledger.total_return 1000 tr_zero == -(1 # 2)
    /\ Ledger.total_return 1000 tr_zero < Ledger.total_return 1000 tr_fee.
Proof.
  eexists; eexists. split; [reflexivity|]. split; [reflexivity|].
  split; vm_compute; reflexivity.
Qed.

(** C7 (amended): when the fee run and the zero-fee run execute the same
    fills (same instrument, quantity and price at every bar), the
    zero-fee run's total return is at least the fee run's, for any
    [proportional_fee >= 0] and [fixed_fee >= 0]. *)
Theorem zero_fee_dominance_same_fills (cfg : Ledger.config) (init : Q) (n : nat)
  (bars : list Ledger.bar) (tr_fee tr_zero : list Ledger.record) :
  0 < init ->
  0 <= Ledger.proportional_fee (Ledger.fees cfg) -> 0 <= Ledger.fixed_fee (Ledger.fees cfg) ->
  Ledger.simulate cfg init n bars = inr tr_fee ->
  Ledger.simulate (Ledger.zero_fee cfg) init n bars = inr tr_zero ->
  Ledger.same_fills tr_fee tr_zero ->
  Ledger.total_return init tr_fee <= Ledger.total_return init tr_zero.
Proof.
  intros Hi Hp Hf H1 H2 Hs.
  unfold Ledger.simulate in H1, H2.
  destruct (Ledger.validate cfg n bars); [discriminate|].
  destruct (Ledger.validate (Ledger.zero_fee cfg) n bars); [discriminate|].
  injection H1 as <-. injection H2 as <-.
  pose proof (LedgerFacts.run_compare cfg bars Hp Hf _ _ eq_refl (Qle_refl _) Hs) as Hc.
  apply LedgerFacts.Forall2_rev_head in Hc.
  unfold Ledger.total_return.
  destruct (rev _) as [|r1 t1], (rev _) as [|r2 t2]; try contradiction; [apply Qle_refl|].
  apply Qplus_le_compat; [|apply Qle_refl].
  unfold Qdiv. apply Qmult_le_compat_r; [exact Hc|].
  apply Qinv_le_0_compat. apply Qlt_le_weak. exact Hi.
Qed.

Lemma zero_fee_dominance_same_fills_witness :
  Ledger.total_return 1000 (Ledger.run Fixtures.fee_config (Ledger.initial_state 1000 1) Fixtures.fixed_qty_bars)
  <= Ledger.total_return 1000
       (Ledger.run (Ledger.zero_fee Fixtures.fee_config) (Ledger.initial_state 1000 1) Fixtures.fixed_qty_bars).
Proof.
  apply (zero_fee_dominance_same_fills Fixtures.fee_config 1000 1 Fixtures.fixed_qty_bars).
  - reflexivity.
  - vm_compute; intro Hc; discriminate Hc.
  - vm_compute; intro Hc; discriminate Hc.
  - reflexivity.
  - reflexivity.
  - vm_compute. repeat constructor.
Defined.

(** C10: in buy_hold_75_25_backtest.py, [size_df] carries target
    percents on the first row only; in the resulting run no bar after the
    first has a fill, and the position quantities of every instrument at
    every later bar equal those after the first bar. *)
Theorem buy_hold_orders_only_first_bar (cfg : Ledger.config) (init : Q) (n : nat)
  (tss : list Z) (cls : list (list Q)) (tr : list Ledger.record) (r0 : Ledger.record) :
  Ledger.simulate cfg init n (Scripts.buy_hold_bars tss cls) = inr tr ->
  nth_error tr 0 = Some r0 ->
  forall t r, nth_error tr (S t) = Some r ->
  Ledger.r_fills r = [] /\ Ledger.r_pos r = Ledger.r_pos r0.
Proof.
  intros Hs H0 t r Ht.
  unfold Ledger.simulate in Hs. destruct (Ledger.validate _ _ _); [discriminate|].
  injection Hs as <-.
  unfold Scripts.buy_hold_bars, Scripts.panel_bars in *.
  destruct tss as [|t0 tss]; [simpl in H0; discriminate|].
  destruct cls as [|c0 cls]; [simpl in H0; discriminate|].
  simpl in H0, Ht.
  destruct (Ledger.process_bar cfg _ _) as [[st' fs] ws]; simpl in H0, Ht.
  injection H0 as <-; simpl.
  assert (Hall : Forall (fun b => forall i, nth i (Ledger.orders b) None = None)
    (map (fun x => Ledger.mk_bar (fst (fst x)) (snd (fst x)) (snd x))
         (combine (combine tss cls) (repeat (repeat None (length Scripts.WEIGHTS)) (length tss))))).
  { apply Forall_map, Forall_forall. intros [x o] Hin; simpl.
    apply in_combine_r, repeat_spec in Hin. subst. intro i. apply nth_repeat. }
  pose proof (LedgerFacts.run_no_orders cfg _ Hall st') as Hr.
  rewrite Forall_forall in Hr. apply Hr. eapply nth_error_In. exact Ht.
Qed.

Lemma buy_hold_orders_only_first_bar_witness :
  Ledger.r_fills (nth 2 (Ledger.run Scripts.buy_hold_config (Ledger.initial_state 1000 2)
                           (Scripts.buy_hold_bars Fixtures.bh_tss Fixtures.bh_closes)) (Ledger.mk_record 0 0 [] 0 [] [])) = []
  /\ Ledger.r_pos (nth 2 (Ledger.run Scripts.buy_hold_config (Ledger.initial_state 1000 2)
                           (Scripts.buy_hold_bars Fixtures.bh_tss Fixtures.bh_closes)) (Ledger.mk_record 0 0 [] 0 [] []))
     = Ledger.r_pos (nth 0 (Ledger.run Scripts.buy_hold_config (Ledger.initial_state 1000 2)
                           (Scripts.buy_hold_bars Fixtures.bh_tss Fixtures.bh_closes)) (Ledger.mk_record 0 0 [] 0 [] [])).
Proof.
  apply (buy_hold_orders_only_first_bar Scripts.buy_hold_config 1000 2 Fixtures.bh_tss Fixtures.bh_closes
           (Ledger.run Scripts.buy_hold_config (Ledger.initial_state 1000 2)
              (Scripts.buy_hold_bars Fixtures.bh_tss Fixtures.bh_closes))
           (nth 0 (Ledger.run Scripts.buy_hold_config (Ledger.initial_state 1000 2)
                     (Scripts.buy_hold_bars Fixtures.bh_tss Fixtures.bh_closes)) (Ledger.mk_record 0 0 [] 0 [] []))
           eq_refl eq_refl 1).
  reflexivity.
Defined.

(* ================================================================== *)
(** * Further properties of the scripts *)

(* ------------------------------------------------------------------ *)
(** ** [calc_cagr] on positive inputs *)
Module CagrFacts.
Local Open Scope R_scope.

Lemma Rpower_base_one (c : R) : Rpower 1 c = 1.
Proof. unfold Rpower. rewrite ln_1, Rmult_0_r. apply exp_0. Qed.

Lemma calc_cagr_unguarded (s e y : R) : 0 < s -> 0 < e -> 0 < y ->
  Cagr.calc_cagr s e y = Rpower (e / s) (1 / y) - 1.
Proof.
  intros Hs He Hy. unfold Cagr.calc_cagr.
  destruct (Rle_dec s 0); [lra|]. destruct (Rle_dec e 0); [lra|].
  destruct (Rle_dec y 0); [lra|]. reflexivity.
Qed.

Lemma ratio_pos (s e : R) : 0 < s -> 0 < e -> 0 < e / s.
Proof.
  intros Hs He. unfold Rdiv. apply Rmult_lt_0_compat; [exact He|].
  apply Rinv_0_lt_compat. exact Hs.
Qed.

Lemma ratio_le (s e1 e2 : R) : 0 < s -> e1 <= e2 -> e1 / s <= e2 / s.
Proof.
  intros Hs H. unfold Rdiv. apply Rmult_le_compat_r; [|exact H].
  left. apply Rinv_0_lt_compat. exact Hs.
Qed.

Lemma ratio_lt (s e1 e2 : R) : 0 < s -> e1 < e2 -> e1 / s < e2 / s.
Proof.
  intros Hs H. unfold Rdiv. apply Rmult_lt_compat_r; [|exact H].
  apply Rinv_0_lt_compat. exact Hs.
Qed.

Lemma exponent_pos (y : R) : 0 < y -> 0 < 1 / y.
Proof. intro Hy. unfold Rdiv. rewrite Rmult_1_l. apply Rinv_0_lt_compat. exact Hy. Qed.

(** The three cases of the comparison of [end_val] with [start_val]. *)
Lemma calc_cagr_cases (s e y : R) : 0 < s -> 0 < e -> 0 < y ->
  -1 < Cagr.calc_cagr s e y
  /\ (s < e -> 0 < Cagr.calc_cagr s e y)
  /\ (e = s -> Cagr.calc_cagr s e y = 0)
  /\ (e < s -> Cagr.calc_cagr s e y < 0).
Proof.
  intros Hs He Hy. rewrite calc_cagr_unguarded by assumption.
  pose proof (exponent_pos y Hy) as Hc.
  pose proof (ratio_pos s e Hs He) as Hx.
  assert (Hss : s / s = 1) by (field; lra).
  split; [|split; [|split]].
  - assert (0 < Rpower (e / s) (1 / y)) by (unfold Rpower; apply exp_pos). lra.
  - intro Hlt. pose proof (ratio_lt s s e Hs Hlt) as H. rewrite Hss in H.
    pose proof (Rlt_Rpower_l 1 (e / s) (1 / y) Hc (conj Rlt_0_1 H)) as H'.
    rewrite Rpower_base_one in H'. lra.
  - intros ->. rewrite Hss, Rpower_base_one. ring.
  - intro Hlt. pose proof (ratio_lt s e s Hs Hlt) as H. rewrite Hss in H.
    pose proof (Rlt_Rpower_l (e / s) 1 (1 / y) Hc (conj Hx H)) as H'.
    rewrite Rpower_base_one in H'. lra.
Qed.

End CagrFacts.

(** X1: for a positive start value, a positive end value and a positive
    number of years, [calc_cagr] is above [-1]; it is positive exactly when
    the end value exceeds the start value, zero exactly when they are
    equal, and negative exactly when the end value is below the start
    value. *)
Theorem calc_cagr_sign (s e y : R) :
  (0 < s)%R -> (0 < e)%R -> (0 < y)%R ->
  (-1 < Cagr.calc_cagr s e y)%R
  /\ ((0 < Cagr.calc_cagr s e y)%R <-> (s < e)%R)
  /\ (Cagr.calc_cagr s e y = 0%R <-> e = s)
  /\ ((Cagr.calc_cagr s e y < 0)%R <-> (e < s)%R).
Proof.
  intros Hs He Hy.
  destruct (CagrFacts.calc_cagr_cases s e y Hs He Hy) as [H1 [H2 [H3 H4]]].
  split; [exact H1|].
  destruct (Rtotal_order s e) as [Hlt|[Heq|Hgt]].
  - specialize (H2 Hlt). split; [split; [intros _; exact Hlt|intros _; exact H2]|].
    split; split; intro H; lra.
  - subst e. specialize (H3 eq_refl).
    split; [split; intro H; lra|]. split; [split; intros _; [reflexivity|exact H3]|].
    split; intro H; lra.
  - specialize (H4 Hgt). split; [split; intro H; lra|].
    split; [split; intro H; lra|]. split; intros _; [exact Hgt|exact H4].
Qed.

Lemma calc_cagr_sign_witness :
  (0 < 100)%R /\ (0 < 150)%R /\ (0 < 2)%R /\ (0 < Cagr.calc_cagr 100 150 2)%R.
Proof.
  assert (H1 : (0 < 100)%R) by lra. assert (H2 : (0 < 150)%R) by lra.
  assert (H3 : (0 < 2)%R) by lra.
  split; [exact H1|]. split; [exact H2|]. split; [exact H3|].
  apply (proj2 (proj1 (proj2 (calc_cagr_sign 100 150 2 H1 H2 H3)))). lra.
Defined.

(** X2: for a positive start value and a positive number of years,
    [calc_cagr] is non-decreasing in the end value over positive end
    values, and strictly increasing there. *)
Theorem calc_cagr_monotone_in_end_value (s e1 e2 y : R) :
  (0 < s)%R -> (0 < e1)%R -> (0 < y)%R ->
  ((e1 <= e2)%R -> (Cagr.calc_cagr s e1 y <= Cagr.calc_cagr s e2 y)%R)
  /\ ((e1 < e2)%R -> (Cagr.calc_cagr s e1 y < Cagr.calc_cagr s e2 y)%R).
Proof.
  intros Hs He1 Hy.
  pose proof (CagrFacts.exponent_pos y Hy) as Hc.
  pose proof (CagrFacts.ratio_pos s e1 Hs He1) as Hx1.
  split; intro H.
  - assert (He2 : (0 < e2)%R) by lra.
    rewrite !CagrFacts.calc_cagr_unguarded by assumption.
    pose proof (Rle_Rpower_l (e1 / s) (e2 / s) (1 / y) (Rlt_le _ _ Hc)
                  (conj Hx1 (CagrFacts.ratio_le s e1 e2 Hs H))). lra.
  - assert (He2 : (0 < e2)%R) by lra.
    rewrite !CagrFacts.calc_cagr_unguarded by assumption.
    pose proof (Rlt_Rpower_l (e1 / s) (e2 / s) (1 / y) Hc
                  (conj Hx1 (CagrFacts.ratio_lt s e1 e2 Hs H))). lra.
Qed.

Lemma calc_cagr_monotone_in_end_value_witness :
  (Cagr.calc_cagr 100 90 3 <= Cagr.calc_cagr 100 120 3)%R.
Proof.
  apply (proj1 (calc_cagr_monotone_in_end_value 100 90 120 3 ltac:(lra) ltac:(lra) ltac:(lra))).
  lra.
Defined.

(** X3: a total loss is reported as a CAGR of 0: with a positive start
    value and a positive number of years, [calc_cagr] of an end value of 0
    is 0, which is larger than the (negative) CAGR of every partial loss
    [0 < end_val < start_val]. *)
Theorem calc_cagr_total_loss_reports_zero (s e y : R) :
  (0 < s)%R -> (0 < e)%R -> (e < s)%R -> (0 < y)%R ->
  Cagr.calc_cagr s 0 y = 0%R /\ (Cagr.calc_cagr s e y < 0)%R
  /\ (Cagr.calc_cagr s e y < Cagr.calc_cagr s 0 y)%R.
Proof.
  intros Hs He Hlt Hy.
  assert (H0 : Cagr.calc_cagr s 0 y = 0%R).
  { unfold Cagr.calc_cagr. destruct (Rle_dec s 0); [reflexivity|].
    destruct (Rle_dec 0 0) as [_|H]; [reflexivity|]. exfalso. apply H, Rle_refl. }
  destruct (CagrFacts.calc_cagr_cases s e y Hs He Hy) as [_ [_ [_ H4]]].
  specialize (H4 Hlt). rewrite H0. split; [reflexivity|]. split; exact H4.
Qed.

Lemma calc_cagr_total_loss_reports_zero_witness :
  Cagr.calc_cagr 1000000 0 2 = 0%R /\ (Cagr.calc_cagr 1000000 500000 2 < 0)%R
  /\ (Cagr.calc_cagr 1000000 500000 2 < Cagr.calc_cagr 1000000 0 2)%R.
Proof.
  apply calc_cagr_total_loss_reports_zero; lra.
Defined.

(* ------------------------------------------------------------------ *)
(** ** Where the drawdown is zero *)
Module DrawdownShape.
Import Drawdown.

Lemma Qmax_choice (x y : Q) : Qmax x y = x \/ Qmax x y = y.
Proof. unfold Qmax, GenericMinMax.gmax. destruct (x ?= y); auto. Qed.

Lemma cummax_aux_nth (l : list Q) : forall m i x,
  nth_error (cummax_aux m l) i = Some x ->
  m <= x
  /\ (forall j e, (j <= i)%nat -> nth_error l j = Some e -> e <= x)
  /\ (x = m \/ exists j, (j <= i)%nat /\ nth_error l j = Some x).
Proof.
  induction l as [|a l IH]; intros m i x H; [destruct i; discriminate|].
  destruct i as [|i]; simpl in H.
  - injection H as <-. split; [apply Q.le_max_l|]. split.
    + intros [|j] e Hj He; [|lia]. simpl in He. injection He as <-. apply Q.le_max_r.
    + destruct (Qmax_choice m a) as [E|E]; rewrite E;
        [left; reflexivity|right; exists 0%nat; split; [lia|reflexivity]].
  - destruct (IH _ _ _ H) as [H1 [H2 H3]].
    split; [eapply Qle_trans; [apply Q.le_max_l|exact H1]|]. split.
    + intros [|j] e Hj He; simpl in He.
      * injection He as <-. eapply Qle_trans; [apply Q.le_max_r|exact H1].
      * apply (H2 j); [lia|exact He].
    + destruct H3 as [E|[j [Hj Ej]]].
      * destruct (Qmax_choice m a) as [E'|E']; rewrite E' in E;
          [left; exact E|right; exists 0%nat; split; [lia|simpl; now rewrite E]].
      * right. exists (S j). split; [lia|exact Ej].
Qed.

(** The running maximum at [i] bounds every value up to [i] and is one of
    them. *)
Lemma cummax_nth (l : list Q) i x : nth_error (cummax l) i = Some x ->
  (forall j e, (j <= i)%nat -> nth_error l j = Some e -> e <= x)
  /\ exists j, (j <= i)%nat /\ nth_error l j = Some x.
Proof.
  intro H. destruct l as [|a l]; [destruct i; discriminate|].
  destruct i as [|i]; simpl in H.
  - injection H as <-. split.
    + intros [|j] e Hj He; [simpl in He; injection He as <-; apply Qle_refl|lia].
    + exists 0%nat. split; [lia|reflexivity].
  - destruct (cummax_aux_nth l a i x H) as [H1 [H2 H3]]. split.
    + intros [|j] e Hj He; simpl in He;
        [injection He as <-; exact H1|apply (H2 j); [lia|exact He]].
    + destruct H3 as [<-|[j [Hj Ej]]];
        [exists 0%nat; split; [lia|reflexivity]|exists (S j); split; [lia|exact Ej]].
Qed.

Lemma nth_error_combine_some {A B} (l1 : list A) (l2 : list B) i p :
  nth_error (combine l1 l2) i = Some p ->
  nth_error l1 i = Some (fst p) /\ nth_error l2 i = Some (snd p).
Proof.
  revert l2 i; induction l1 as [|a l1 IH]; intros [|b l2] [|i] H; simpl in *;
    try discriminate; [injection H as <-; auto|apply IH; exact H].
Qed.

End DrawdownShape.

(** X4: for an equity curve of positive values, every value of
    [drawdown = equity / equity.cummax() - 1] lies in [(-1, 0]], and it is
    0 at bar [i] exactly when the equity at [i] is at least every earlier
    equity value (a new running high). *)
Theorem drawdown_zero_exactly_at_new_highs (equity : list Q) :
  Forall (fun e => 0 < e) equity ->
  forall i d, nth_error (Drawdown.drawdown equity) i = Some d ->
  -1 < d /\ d <= 0
  /\ (d == 0 <-> forall j e, (j <= i)%nat -> nth_error equity j = Some e -> e <= nth i equity 0).
Proof.
  intros Hpos i d H. unfold Drawdown.drawdown in H. rewrite nth_error_map in H.
  destruct (nth_error (combine _ _) i) as [[e m]|] eqn:Ec; [|discriminate].
  simpl in H. injection H as <-.
  apply DrawdownShape.nth_error_combine_some in Ec as [Ee Em]; simpl in Ee, Em.
  destruct (DrawdownShape.cummax_nth _ _ _ Em) as [Hup [j0 [Hj0 Ej0]]].
  rewrite Forall_forall in Hpos.
  assert (He : 0 < e) by (apply Hpos; eapply nth_error_In; exact Ee).
  assert (Hm : 0 < m) by (apply Hpos; eapply nth_error_In; exact Ej0).
  assert (Hem : e <= m) by (apply (Hup i); [lia|exact Ee]).
  assert (Hi : nth i equity 0 = e) by (apply nth_error_nth; exact Ee).
  assert (Hm0 : ~ m == 0) by (intro Hc; rewrite Hc in Hm; discriminate Hm).
  rewrite Hi. split; [|split].
  - assert (Hd : 0 < e / m)
      by (apply Qlt_shift_div_l; [exact Hm|]; rewrite Qmult_0_l; exact He).
    apply (Qplus_lt_l _ _ 1).
    setoid_replace (-1 + 1) with 0 by ring.
    setoid_replace (e / m - 1 + 1) with (e / m) by ring. exact Hd.
  - apply DrawdownFacts.ratio_minus_one_nonpos; [exact Hm|exact Hem].
  - split.
    + intros Hz j e' Hj He'.
      assert (Hq : e == m).
      { setoid_replace e with ((e / m - 1 + 1) * m) by (field; exact Hm0).
        rewrite Hz. ring. }
      rewrite Hq. apply (Hup j); [exact Hj|exact He'].
    + intro Hall.
      assert (Hq : m == e) by (apply Qle_antisym; [apply (Hall j0); [exact Hj0|exact Ej0]|exact Hem]).
      rewrite <- Hq. field. exact Hm0.
Qed.

Lemma drawdown_zero_exactly_at_new_highs_witness :
  Forall (fun e => 0 < e) [100; 120; 90; 150]
  /\ nth_error (Drawdown.drawdown [100; 120; 90; 150]) 2 = Some (90 / 120 - 1)
  /\ (-1 < 90 / 120 - 1 /\ 90 / 120 - 1 <= 0
      /\ (90 / 120 - 1 == 0 <-> forall j e, (j <= 2)%nat -> nth_error [100; 120; 90; 150] j = Some e ->
                                e <= nth 2 [100; 120; 90; 150] 0)).
Proof.
  assert (Hp : Forall (fun e => 0 < e) [100; 120; 90; 150]) by (repeat constructor).
  assert (Hn : nth_error (Drawdown.drawdown [100; 120; 90; 150]) 2 = Some (90 / 120 - 1))
    by reflexivity.
  split; [exact Hp|]. split; [exact Hn|].
  exact (drawdown_zero_exactly_at_new_highs [100; 120; 90; 150] Hp 2 _ Hn).
Defined.

(* ------------------------------------------------------------------ *)
(** ** Quarterly winners and rebalance days *)
Module RebalanceFacts.
Import DualMomentum Rebalance.

Lemma winner_tail_nth (l : series (Q * Q)) : forall tp cp tc c m,
  nth_error
    (dropna (combine (map fst (map (fun p => (fst p, idxmax2 (snd p))) (pct_change_from c l)))
                     (idxmax2 (Some (fst c / fst cp - 1), Some (snd c / snd cp - 1))
                      :: map snd (map (fun p => (fst p, idxmax2 (snd p))) (pct_change_from c l))))) m
  = match nth_error ((tp, cp) :: (tc, c) :: l) m, nth_error ((tp, cp) :: (tc, c) :: l) (S m),
          nth_error ((tp, cp) :: (tc, c) :: l) (S (S m)) with
    | Some (_, (n0, g0)), Some (_, (n1, g1)), Some (t2, _) =>
        Some (t2, if Qle_bool (g1 / g0 - 1) (n1 / n0 - 1) then NIFTYBEES else GOLDBEES)
    | _, _, _ => None
    end.
Proof.
  induction l as [|[t2 [n2 g2]] l IH]; intros tp [n0 g0] tc [n1 g1] m.
  - destruct m as [|[|[|m]]]; reflexivity.
  - cbn [pct_change_from map fst snd combine].
    destruct m as [|m].
    + cbn [nth_error idxmax2]. destruct (Qle_bool (g1 / g0 - 1) (n1 / n0 - 1)); reflexivity.
    + unfold idxmax2 at 1.
      destruct (Qle_bool (g1 / g0 - 1) (n1 / n0 - 1)); cbn [dropna nth_error];
        exact (IH tc (n1, g1) t2 (n2, g2) m).
Qed.

Lemma set_nth_nth {A} (n : nat) (v : A) (l : list A) : forall i x,
  nth_error (set_nth n v l) i = Some x -> (i = n /\ x = v) \/ (i <> n /\ nth_error l i = Some x).
Proof.
  revert n; induction l as [|a l IH]; intros [|n] [|i] x H; simpl in *; try discriminate.
  - left. split; [reflexivity|congruence].
  - right. split; [lia|exact H].
  - right. split; [lia|exact H].
  - destruct (IH n i x H) as [[-> ->]|[Hn H']]; [left; auto|right; split; [lia|exact H']].
Qed.

(** A value of [alloc_daily] right after the loop was written by some
    shifted winner, at its [searchsorted] position. *)
Lemma assign_origin (idx : list Z) (ws : series symbol) : forall alloc p s,
  nth_error (assign idx ws alloc) p = Some (Some s) ->
  nth_error alloc p = Some (Some s) \/ exists dt, In (dt, s) ws /\ searchsorted_right idx dt = p.
Proof.
  induction ws as [|[dt s'] ws IH]; intros alloc p s H; simpl in H; [left; exact H|].
  destruct (IH _ _ _ H) as [H1|[dt' [Hin Hp]]].
  - destruct (Nat.ltb _ _).
    + destruct (set_nth_nth _ _ _ _ _ H1) as [[-> E]|[_ H2]].
      * injection E as ->. right. exists dt. split; [now left|reflexivity].
      * left. exact H2.
    + left. exact H1.
  - right. exists dt'. split; [now right|exact Hp].
Qed.

Lemma repeat_none_no_some {A} (n p : nat) (s : A) : nth_error (repeat None n) p <> Some (Some s).
Proof.
  intro H. apply nth_error_In, repeat_spec in H. discriminate.
Qed.

Lemma length_ffill_from {A} (last : option A) (l : list (option A)) :
  length (ffill_from last l) = length l.
Proof. revert last; induction l as [|[a|] l IH]; intro last; simpl; auto. Qed.

(** [ffill()]: a row keeps its own value, or takes the filled previous
    one. *)
Lemma ffill_from_succ {A} (l : list (option A)) : forall last i,
  nth_error (ffill_from last l) (S i) =
  match nth_error l (S i) with
  | Some (Some v) => Some (Some v)
  | Some None => nth_error (ffill_from last l) i
  | None => None
  end.
Proof.
  induction l as [|x r IH]; intros last i; [reflexivity|].
  destruct x as [a|]; simpl;
    (destruct i as [|i]; [destruct r as [|[b|] r]; reflexivity|rewrite IH; reflexivity]).
Qed.

Lemma drop_leading_na_length {A} (l : list (option A)) :
  (length (drop_leading_na l) <= length l)%nat.
Proof. induction l as [|[a|] l IH]; simpl; lia. Qed.

Lemma drop_leading_na_skipn {A} (l : list (option A)) :
  drop_leading_na l = skipn (length l - length (drop_leading_na l)) l.
Proof.
  induction l as [|[a|] l IH]; cbn [drop_leading_na length];
    [reflexivity|now rewrite Nat.sub_diag|].
  pose proof (drop_leading_na_length l).
  replace (S (length l) - length (drop_leading_na l))%nat
    with (S (length l - length (drop_leading_na l))) by lia.
  exact IH.
Qed.

Lemma switch_mask_succ (L : list (option symbol)) j b :
  nth_error (switch_mask L) (S j) = Some b ->
  exists x y, nth_error L (S j) = Some x /\ nth_error L j = Some y /\ b = sym_ne x y.
Proof.
  destruct L as [|a r]; [discriminate|]. simpl. rewrite nth_error_map.
  destruct (nth_error (combine r (a :: r)) j) as [[x y]|] eqn:E; [|discriminate].
  intro H. injection H as <-.
  apply DrawdownShape.nth_error_combine_some in E as [E1 E2]. simpl in E1, E2.
  exists x, y. auto.
Qed.

Lemma sym_ne_refl (s : symbol) : sym_ne (Some s) (Some s) = false.
Proof. destruct s; reflexivity. Qed.

(** On a sorted index, [searchsorted(dt, side="right")] is the position of
    the first timestamp strictly after [dt]. *)
Lemma searchsorted_right_sorted (idx : list Z) (dt : Z) :
  Sorted Z.le idx ->
  (forall i d, (i < searchsorted_right idx dt)%nat -> nth_error idx i = Some d -> (d <= dt)%Z)
  /\ (forall i d, (searchsorted_right idx dt <= i)%nat -> nth_error idx i = Some d -> (dt < d)%Z).
Proof.
  intro Hs. apply Sorted_StronglySorted in Hs; [|intros x y z; lia].
  induction Hs as [|x r Hr IH Hall]; [split; intros [|i] d _ H; discriminate|].
  destruct IH as [IH1 IH2]. simpl.
  destruct (Z.leb_spec x dt) as [Hx|Hx].
  - split.
    + intros [|i] d Hi H; simpl in H; [congruence|apply (IH1 i); [lia|exact H]].
    + intros [|i] d Hi H; [lia|]. simpl in H. apply (IH2 i); [lia|exact H].
  - split; [intros i d Hi; lia|].
    intros [|i] d _ H; simpl in H; [congruence|].
    rewrite Forall_forall in Hall. apply nth_error_In in H.
    specialize (Hall d H). lia.
Qed.

Lemma assign_out_of_range (idx : list Z) (ws : series symbol) : forall alloc,
  (forall dt s, In (dt, s) ws -> (length idx <= searchsorted_right idx dt)%nat) ->
  assign idx ws alloc = alloc.
Proof.
  induction ws as [|[dt s] ws IH]; intros alloc H; [reflexivity|]. simpl.
  destruct (Nat.ltb_spec (searchsorted_right idx dt) (length idx)) as [Hl|_].
  - specialize (H dt s (or_introl eq_refl)). lia.
  - apply IH. intros dt' s' Hin. apply (H dt' s'). now right.
Qed.

Lemma ffill_from_repeat_none {A} (n : nat) :
  ffill_from (@None A) (repeat None n) = repeat None n.
Proof. induction n as [|n IH]; simpl; [reflexivity|now rewrite IH]. Qed.

Lemma existsb_repeat_none {A} (n : nat) : existsb (@is_some A) (repeat None n) = false.
Proof. induction n; simpl; auto. Qed.

Lemma combine_repeat {A B} (a : A) (b : B) (n : nat) :
  combine (repeat a n) (repeat b (S n)) = repeat (a, b) n.
Proof. induction n as [|n IH]; simpl; [reflexivity|]. simpl in IH. now rewrite IH. Qed.

Lemma combine_repeat_same {A B} (a : A) (b : B) (n : nat) :
  combine (repeat a n) (repeat b n) = repeat (a, b) n.
Proof. induction n as [|n IH]; simpl; [reflexivity|now rewrite IH]. Qed.

End RebalanceFacts.

(** X5: [winner_shifted = winner.shift(1).dropna()] holds, for every
    quarter end [t_(m+2)] from the third one on, the winner of the quarter
    that ended at [t_(m+1)] (returns from [t_m] to [t_(m+1)]), one quarter
    before the quarter that has just ended: NIFTYBEES when its quarterly
    return is at least GOLDBEES's (a tie goes to NIFTYBEES), GOLDBEES
    otherwise. The first two quarter ends get no entry. *)
Theorem winner_shifted_is_previous_quarter_winner
  (qc : DualMomentum.series (Q * Q)) (m : nat) :
  nth_error (Rebalance.winner_shifted qc) m =
  match nth_error qc m, nth_error qc (S m), nth_error qc (S (S m)) with
  | Some (_, (n0, g0)), Some (_, (n1, g1)), Some (t2, _) =>
      Some (t2, if Qle_bool (g1 / g0 - 1) (n1 / n0 - 1)
                then DualMomentum.NIFTYBEES else DualMomentum.GOLDBEES)
  | _, _, _ => None
  end.
Proof.
  destruct qc as [|[t0 c0] [|[t1 [n1 g1]] qc]].
  - destruct m; reflexivity.
  - destruct c0; destruct m as [|[|m]]; reflexivity.
  - exact (RebalanceFacts.winner_tail_nth qc t0 c0 t1 (n1, g1) m).
Qed.

(** X6: on a sorted daily index, once one shifted quarter winner lands on
    a trading day, every row of [switch_mask] after the first that is
    [True] (a rebalance day) is the first trading day strictly after the
    quarter-end label [dt] of some entry [(dt, s)] of [winner_shifted],
    and from that row [alloc_daily] holds [s]: rebalancing happens only on
    the first trading day after a quarter end. Row [j] of [alloc_daily]
    is row [p] of the price index. *)
Theorem rebalance_only_first_day_after_quarter_end
  (idx : list Z) (winner : DualMomentum.series (option DualMomentum.symbol))
  (dt0 : Z) (s0 : DualMomentum.symbol) :
  Sorted Z.le idx ->
  In (dt0, s0) (DualMomentum.dropna (DualMomentum.shift1 winner)) ->
  (DualMomentum.searchsorted_right idx dt0 < length idx)%nat ->
  forall j, (0 < j)%nat ->
  nth_error (Rebalance.switch_mask (DualMomentum.alloc_daily idx winner)) j = Some true ->
  let p := (length idx - length (DualMomentum.alloc_daily idx winner) + j)%nat in
  exists dt s, In (dt, s) (DualMomentum.dropna (DualMomentum.shift1 winner))
    /\ DualMomentum.searchsorted_right idx dt = p
    /\ nth_error (DualMomentum.alloc_daily idx winner) j = Some (Some s)
    /\ (forall i d, (i < p)%nat -> nth_error idx i = Some d -> (d <= dt)%Z)
    /\ (forall i d, (p <= i)%nat -> nth_error idx i = Some d -> (dt < d)%Z).
Proof.
  intros Hs Hin Hp j Hj Hsw p.
  pose proof (DualMomentumFacts.alloc_daily_all_some idx winner dt0 s0 Hin Hp) as Hall.
  set (a := Rebalance.alloc_raw idx winner).
  assert (Ha : DualMomentum.alloc_daily idx winner = DualMomentum.drop_leading_na (DualMomentum.ffill a)).
  { unfold DualMomentum.alloc_daily, DualMomentum.from_first_valid, a, Rebalance.alloc_raw.
    unfold DualMomentum.ffill at 1.
    rewrite (DualMomentumFacts.ffill_keeps None _
               (DualMomentumFacts.assign_some idx _ _ dt0 s0 (repeat_length _ _) Hin Hp)).
    reflexivity. }
  assert (Hla : length (DualMomentum.ffill a) = length idx).
  { unfold DualMomentum.ffill, a, Rebalance.alloc_raw.
    rewrite RebalanceFacts.length_ffill_from, DualMomentumFacts.length_assign. apply repeat_length. }
  unfold p in *. clear p. rewrite Ha in Hsw, Hall |- *.
  set (F := DualMomentum.ffill a) in *.
  set (K := (length idx - length (DualMomentum.drop_leading_na F))%nat).
  assert (HL : forall i, nth_error (DualMomentum.drop_leading_na F) i = nth_error F (K + i)).
  { intro i. rewrite (RebalanceFacts.drop_leading_na_skipn F) at 1. rewrite nth_error_skipn.
    unfold K. rewrite Hla. reflexivity. }
  destruct j as [|j]; [lia|].
  destruct (RebalanceFacts.switch_mask_succ _ _ _ Hsw) as [x [y [Ex [Ey Hne]]]].
  rewrite Forall_forall in Hall.
  assert (Hy : DualMomentum.is_some y = true) by (apply Hall; eapply nth_error_In; exact Ey).
  rewrite HL in Ex, Ey.
  replace (K + S j)%nat with (S (K + j)) in Ex by lia.
  unfold F, DualMomentum.ffill in Ex, Ey. rewrite RebalanceFacts.ffill_from_succ in Ex.
  destruct (nth_error a (S (K + j))) as [[s|]|] eqn:Ea; [| |discriminate].
  - injection Ex as <-.
    destruct (RebalanceFacts.assign_origin idx _ _ _ _ Ea) as [Hr|[dt [Hdt Hpos]]];
      [exfalso; exact (RebalanceFacts.repeat_none_no_some _ _ _ Hr)|].
    destruct (RebalanceFacts.searchsorted_right_sorted idx dt Hs) as [S1 S2].
    exists dt, s. split; [exact Hdt|]. split; [rewrite Hpos; lia|]. split.
    + rewrite HL. replace (K + S j)%nat with (S (K + j)) by lia.
      unfold F, DualMomentum.ffill. rewrite RebalanceFacts.ffill_from_succ, Ea. reflexivity.
    + split; intros i d Hi Hd; [apply (S1 i d)|apply (S2 i d)]; try lia; exact Hd.
  - rewrite Ey in Ex. injection Ex as Exy. subst x.
    destruct y as [s'|]; [|discriminate Hy].
    rewrite RebalanceFacts.sym_ne_refl in Hne. discriminate Hne.
Qed.

Lemma rebalance_only_first_day_after_quarter_end_witness :
  exists dt s,
    In (dt, s) (DualMomentum.dropna (DualMomentum.shift1
      [(0%Z, None); (2%Z, Some DualMomentum.GOLDBEES); (4%Z, Some DualMomentum.NIFTYBEES);
       (6%Z, Some DualMomentum.GOLDBEES)]))
    /\ DualMomentum.searchsorted_right [1; 2; 3; 4; 5; 6; 7; 8]%Z dt = 6%nat
    /\ nth_error (DualMomentum.alloc_daily [1; 2; 3; 4; 5; 6; 7; 8]%Z
         [(0%Z, None); (2%Z, Some DualMomentum.GOLDBEES); (4%Z, Some DualMomentum.NIFTYBEES);
          (6%Z, Some DualMomentum.GOLDBEES)]) 2 = Some (Some s)
    /\ (forall i d, (i < 6)%nat -> nth_error [1; 2; 3; 4; 5; 6; 7; 8]%Z i = Some d -> (d <= dt)%Z)
    /\ (forall i d, (6 <= i)%nat -> nth_error [1; 2; 3; 4; 5; 6; 7; 8]%Z i = Some d -> (dt < d)%Z).
Proof.
  refine (rebalance_only_first_day_after_quarter_end [1; 2; 3; 4; 5; 6; 7; 8]%Z
            [(0%Z, None); (2%Z, Some DualMomentum.GOLDBEES); (4%Z, Some DualMomentum.NIFTYBEES);
             (6%Z, Some DualMomentum.GOLDBEES)] 4 DualMomentum.GOLDBEES _ _ _ 2 _ _).
  - repeat first [lia | constructor].
  - simpl. auto.
  - vm_compute. lia.
  - lia.
  - vm_compute. reflexivity.
Defined.

(** X7: when no shifted quarter winner lands on a trading day of a
    non-empty index (every [searchsorted(dt, side="right")] is past the
    end), [alloc_daily] stays all NaN, [switch_mask] is [True] on every
    row (NaN is unequal to NaN), so [target_on_switch] asks for a
    rebalance to zero weights on every day and [rebalance_count] is the
    number of trading days. *)
Theorem rebalance_every_row_when_no_winner_lands
  (idx : list Z) (winner : DualMomentum.series (option DualMomentum.symbol)) :
  idx <> [] ->
  (forall dt s, In (dt, s) (DualMomentum.dropna (DualMomentum.shift1 winner)) ->
     (length idx <= DualMomentum.searchsorted_right idx dt)%nat) ->
  Rebalance.target_on_switch idx winner = repeat (Some (0, 0)) (length idx)
  /\ Rebalance.rebalance_count idx winner = length idx.
Proof.
  intros Hne Hout.
  assert (HA : DualMomentum.alloc_daily idx winner = repeat None (length idx)).
  { unfold DualMomentum.alloc_daily, DualMomentum.from_first_valid, DualMomentum.ffill.
    rewrite (RebalanceFacts.assign_out_of_range idx _ _ Hout).
    rewrite RebalanceFacts.ffill_from_repeat_none, RebalanceFacts.existsb_repeat_none.
    reflexivity. }
  destruct idx as [|d0 idx]; [contradiction|]. clear Hne Hout.
  set (n := length idx).
  assert (HS : Rebalance.switch_mask (DualMomentum.alloc_daily (d0 :: idx) winner)
               = repeat true (S n)).
  { rewrite HA. cbn [length repeat Rebalance.switch_mask]. fold n.
    change (None :: repeat None n) with (repeat (@None DualMomentum.symbol) (S n)).
    rewrite RebalanceFacts.combine_repeat, map_repeat. reflexivity. }
  split.
  - unfold Rebalance.target_on_switch, DualMomentum.weights. rewrite HS, HA.
    cbn [length]. fold n. rewrite map_repeat.
    rewrite RebalanceFacts.combine_repeat_same, map_repeat. reflexivity.
  - unfold Rebalance.rebalance_count, SeriesOps.count_true. rewrite HS.
    cbn [length]. fold n. clear HS HA.
    induction n as [|k IH]; [reflexivity|].
    cbn [repeat filter length]. cbn [repeat filter length] in IH. now rewrite IH.
Qed.

Lemma rebalance_every_row_when_no_winner_lands_witness :
  Rebalance.target_on_switch [1; 2; 3]%Z
    [(1%Z, None); (2%Z, Some DualMomentum.NIFTYBEES); (5%Z, Some DualMomentum.GOLDBEES)]
  = repeat (Some (0, 0)) 3
  /\ Rebalance.rebalance_count [1; 2; 3]%Z
    [(1%Z, None); (2%Z, Some DualMomentum.NIFTYBEES); (5%Z, Some DualMomentum.GOLDBEES)] = 3%nat.
Proof.
  apply (rebalance_every_row_when_no_winner_lands [1; 2; 3]%Z
    [(1%Z, None); (2%Z, Some DualMomentum.NIFTYBEES); (5%Z, Some DualMomentum.GOLDBEES)]).
  - discriminate.
  - intros dt s Hin. simpl in Hin.
    destruct Hin as [Hin|[]]; injection Hin as <- <-; vm_compute; lia.
Defined.

(* ------------------------------------------------------------------ *)
(** ** Reindexing a benchmark onto the trading days *)
Module SeriesFacts.
Import DualMomentum SeriesOps.

Lemma length_bfill {A} (l : list (option A)) : length (bfill l) = length l.
Proof. induction l as [|[a|] l IH]; simpl; auto. Qed.

Lemma bfill_keeps_some {A} (l : list (option A)) i v :
  nth_error l i = Some (Some v) -> nth_error (bfill l) i = Some (Some v).
Proof.
  revert i; induction l as [|x l IH]; intros i H; [destruct i; discriminate|].
  destruct i as [|i]; simpl in H.
  - injection H as ->. reflexivity.
  - simpl. destruct x; simpl; apply IH, H.
Qed.

Lemma ffill_from_keeps_some {A} (last : option A) (l : list (option A)) i v :
  nth_error l i = Some (Some v) -> nth_error (ffill_from last l) i = Some (Some v).
Proof.
  revert last i; induction l as [|x l IH]; intros last i H; [destruct i; discriminate|].
  destruct i as [|i]; simpl in H.
  - injection H as ->. reflexivity.
  - destruct x; simpl; apply IH, H.
Qed.

Lemma bfill_values {A} (l : list (option A)) v : In (Some v) (bfill l) -> In (Some v) l.
Proof.
  induction l as [|[a|] l IH]; simpl; [tauto|intuition|].
  intros [H|H]; [|right; auto].
  right. apply IH. destruct (bfill l); simpl in H; [discriminate|left; exact H].
Qed.

Lemma ffill_from_values {A} (last : option A) (l : list (option A)) v :
  In (Some v) (ffill_from last l) -> last = Some v \/ In (Some v) l.
Proof.
  revert last; induction l as [|[a|] l IH]; intros last; simpl; [tauto| |].
  - intros [H|H]; [right; left; exact H|].
    destruct (IH _ H) as [E|E]; [right; left; exact E|right; right; exact E].
  - intros [H|H]; [left; exact H|].
    destruct (IH _ H) as [E|E]; [left; exact E|right; right; exact E].
Qed.

Lemma bfill_all_some {A} (l : list (option A)) :
  Forall (fun o => is_some o = true) l -> bfill l = l.
Proof.
  induction 1 as [|[a|] l Hx Hl IH]; [reflexivity| |discriminate].
  simpl. now rewrite IH.
Qed.

Lemma bfill_ffill_all_some {A} (l : list (option A)) :
  existsb is_some l = true -> Forall (fun o => is_some o = true) (bfill (ffill_from None l)).
Proof.
  induction l as [|[a|] l IH]; simpl; [discriminate| |].
  - intros _. rewrite bfill_all_some by apply DualMomentumFacts.ffill_from_some_all.
    constructor; [reflexivity|apply DualMomentumFacts.ffill_from_some_all].
  - intro H. specialize (IH H).
    destruct (bfill (ffill_from None l)) as [|y r] eqn:E.
    + exfalso. destruct l as [|x l]; [discriminate|].
      pose proof (length_bfill (ffill_from None (x :: l))) as Hl.
      rewrite E, RebalanceFacts.length_ffill_from in Hl. discriminate.
    + simpl. inversion IH. constructor; [assumption|constructor; assumption].
Qed.

Lemma existsb_false_repeat {A} (l : list (option A)) :
  existsb is_some l = false -> l = repeat None (length l).
Proof.
  induction l as [|[a|] l IH]; simpl; [reflexivity|discriminate|].
  intro H. now rewrite <- IH.
Qed.

Lemma bfill_repeat_none {A} (n : nat) : bfill (repeat (@None A) n) = repeat None n.
Proof. induction n as [|n IH]; simpl; [reflexivity|]. rewrite IH. now destruct n. Qed.

Lemma lookup_in {A} (src : series (option A)) t v :
  NoDup (map fst src) -> In (t, Some v) src -> lookup src t = Some v.
Proof.
  induction src as [|[k w] src IH]; simpl; [tauto|].
  intros Hnd [E|H]; inversion Hnd as [|? ? Hk Hnd']; subst.
  - injection E as -> ->. now rewrite Z.eqb_refl.
  - destruct (Z.eqb_spec k t) as [->|_]; [|auto].
    exfalso. apply Hk. apply (in_map fst) in H. exact H.
Qed.

Lemma lookup_some {A} (src : series (option A)) t v :
  lookup src t = Some v -> In (t, Some v) src.
Proof.
  induction src as [|[k w] src IH]; simpl; [discriminate|].
  destruct (Z.eqb_spec k t) as [->|_]; intro H; [left; now subst|right; auto].
Qed.

End SeriesFacts.

(** X8: [src.reindex(index).ffill().bfill()] (the NIFTY benchmark close
    put on the trading days), for a source with unique labels: the result
    has one row per index day; a day whose label carries a value in the
    source keeps that value; every value of the result is a value of the
    source; if at least one index day carries a value no NaN remains,
    and if none does the result is all NaN. *)
Theorem reindex_ffill_bfill_fills_from_source
  {A} (src : DualMomentum.series (option A)) (idx : list Z) :
  NoDup (map fst src) ->
  let out := SeriesOps.reindex_ffill_bfill src idx in
  length out = length idx
  /\ (forall i t v, nth_error idx i = Some t -> In (t, Some v) src ->
        nth_error out i = Some (Some v))
  /\ (forall v, In (Some v) out -> exists t, In t idx /\ In (t, Some v) src)
  /\ ((exists t v, In t idx /\ In (t, Some v) src) ->
        Forall (fun o => DualMomentum.is_some o = true) out)
  /\ ((forall t v, In t idx -> ~ In (t, Some v) src) -> out = repeat None (length idx)).
Proof.
  intros Hnd out. unfold out, SeriesOps.reindex_ffill_bfill, DualMomentum.ffill, SeriesOps.reindex.
  split; [|split; [|split; [|split]]].
  - rewrite SeriesFacts.length_bfill, RebalanceFacts.length_ffill_from. apply length_map.
  - intros i t v Hi Ht. apply SeriesFacts.bfill_keeps_some, SeriesFacts.ffill_from_keeps_some.
    rewrite nth_error_map, Hi. simpl. now rewrite (SeriesFacts.lookup_in src t v Hnd Ht).
  - intros v Hv. apply SeriesFacts.bfill_values, SeriesFacts.ffill_from_values in Hv.
    destruct Hv as [Hv|Hv]; [discriminate|].
    apply in_map_iff in Hv as [t [Ht Hin]]. exists t. split; [exact Hin|].
    now apply SeriesFacts.lookup_some.
  - intros [t [v [Hin Ht]]]. apply SeriesFacts.bfill_ffill_all_some.
    apply existsb_exists. exists (Some v). split; [|reflexivity].
    rewrite <- (SeriesFacts.lookup_in src t v Hnd Ht). now apply in_map.
  - intro Hno.
    assert (E : existsb DualMomentum.is_some (map (SeriesOps.lookup src) idx) = false).
    { apply not_true_iff_false. intro H. apply existsb_exists in H as [o [Ho Hs]].
      apply in_map_iff in Ho as [t [Ht Hin]].
      destruct o as [v|]; [|discriminate].
      apply (Hno t v Hin). now apply SeriesFacts.lookup_some. }
    rewrite (SeriesFacts.existsb_false_repeat _ E), length_map.
    rewrite RebalanceFacts.ffill_from_repeat_none. apply SeriesFacts.bfill_repeat_none.
Qed.

Lemma reindex_ffill_bfill_fills_from_source_witness :
  SeriesOps.reindex_ffill_bfill [(2%Z, Some 10); (4%Z, None); (5%Z, Some 12)] [1; 2; 3; 4; 6]%Z
  = [Some 10; Some 10; Some 10; Some 10; Some 10]
  /\ (forall v, In (Some v) (SeriesOps.reindex_ffill_bfill
          [(2%Z, Some 10); (4%Z, None); (5%Z, Some 12)] [1; 2; 3; 4; 6]%Z) ->
        exists t, In t [1; 2; 3; 4; 6]%Z /\ In (t, Some v) [(2%Z, Some 10); (4%Z, None); (5%Z, Some 12)]).
Proof.
  split; [vm_compute; reflexivity|].
  apply (reindex_ffill_bfill_fills_from_source [(2%Z, Some 10); (4%Z, None); (5%Z, Some 12)]
           [1; 2; 3; 4; 6]%Z).
  repeat constructor; simpl; intuition discriminate.
Defined.

(* ------------------------------------------------------------------ *)
(** ** Slab sizing, signal counts and the weekly signal log *)
Module RsiFacts.
Import RsiAccumulation RsiSizing.

Lemma Qltb_true x y : Qltb x y = true <-> x < y.
Proof.
  unfold Qltb, Qlt, Qcompare. rewrite <- Z.compare_lt_iff.
  destruct (Z.compare _ _); split; congruence.
Qed.

Lemma Qltb_false x y : Qltb x y = false -> y <= x.
Proof.
  intro H. apply Qnot_lt_le. intro Hl. apply Qltb_true in Hl. congruence.
Qed.

Lemma Qle_bool_false x y : Qle_bool x y = false -> y < x.
Proof.
  intro H. apply Qnot_le_lt. intro Hl. apply Qle_bool_iff in Hl. congruence.
Qed.

Ltac qbool :=
  repeat match goal with
  | |- context [Qltb ?x ?y] =>
      let E := fresh "E" in
      destruct (Qltb x y) eqn:E; [apply Qltb_true in E | apply Qltb_false in E]
  | |- context [Qle_bool ?x ?y] =>
      let E := fresh "E" in
      destruct (Qle_bool x y) eqn:E; [apply Qle_bool_iff in E | apply Qle_bool_false in E]
  end.

Ltac bar_cases x :=
  unfold buy_at, exit_at, rsi_valid, rsi_lt, rsi_gt, slab_index,
    RSI_BUY_THRESHOLD, RSI_EXIT_THRESHOLD;
  destruct (friday_315 x); destruct (rsi_mapped x) as [r|]; cbn [andb];
  qbool; cbn [andb negb]; try reflexivity; try (exfalso; lra).

Lemma count_true_map {A} (f : A -> bool) (l : list A) :
  SeriesOps.count_true (map f l) = length (filter f l).
Proof.
  unfold SeriesOps.count_true. induction l as [|x l IH]; simpl; [reflexivity|].
  destruct (f x); simpl; auto.
Qed.

Lemma length_filter_app {A} (f : A -> bool) (l1 l2 : list A) :
  length (filter f (l1 ++ l2)) = (length (filter f l1) + length (filter f l2))%nat.
Proof. rewrite filter_app. apply length_app. Qed.

Definition b2n (b : bool) : nat := if b then 1%nat else 0%nat.

Lemma length_filter_cons {A} (f : A -> bool) x (l : list A) :
  length (filter f (x :: l)) = (b2n (f x) + length (filter f l))%nat.
Proof. simpl. destruct (f x); reflexivity. Qed.

Lemma bar_friday_split (x : bar15) :
  b2n (friday_315 x)
  = (b2n (buy_at x) + b2n (exit_at x)
     + b2n (friday_315 x && match rsi_mapped x with
                            | None => true
                            | Some r => Qle_bool 68 r && Qle_bool r 70 end))%nat.
Proof. bar_cases x. Qed.

Lemma bar_slab_step (x : bar15) (a b c : nat) :
  (if buy_at x then bump (slab_index (rsi_mapped x)) (a, b, c) else (a, b, c))
  = ((a + b2n (friday_315 x && match rsi_mapped x with
                             | Some r => Qle_bool 50 r && Qltb r 68 | None => false end))%nat,
     (b + b2n (friday_315 x && match rsi_mapped x with
                             | Some r => Qle_bool 30 r && Qltb r 50 | None => false end))%nat,
     (c + b2n (friday_315 x && match rsi_mapped x with
                             | Some r => Qltb r 30 | None => false end))%nat).
Proof. bar_cases x; cbn [bump b2n]; rewrite ?Nat.add_0_r, ?Nat.add_1_r; reflexivity. Qed.

Lemma bar_slab_sum (x : bar15) :
  b2n (buy_at x)
  = (b2n (friday_315 x && match rsi_mapped x with
                          | Some r => Qle_bool 50 r && Qltb r 68 | None => false end)
     + b2n (friday_315 x && match rsi_mapped x with
                            | Some r => Qle_bool 30 r && Qltb r 50 | None => false end)
     + b2n (friday_315 x && match rsi_mapped x with
                            | Some r => Qltb r 30 | None => false end))%nat.
Proof. bar_cases x. Qed.

Lemma buy_count_filter bars : buy_count bars = length (filter buy_at bars).
Proof. apply count_true_map. Qed.

Lemma exit_count_filter bars : exit_count bars = length (filter exit_at bars).
Proof. apply count_true_map. Qed.

Lemma total_fridays_filter bars : total_fridays bars = length (filter friday_315 bars).
Proof. apply count_true_map. Qed.

Lemma no_action_count bars :
  no_action bars =
  Z.of_nat (length (filter (fun x => friday_315 x
              && match rsi_mapped x with
                 | None => true | Some r => Qle_bool 68 r && Qle_bool r 70 end) bars)).
Proof.
  unfold no_action. rewrite total_fridays_filter, buy_count_filter, exit_count_filter.
  enough (length (filter friday_315 bars) =
    (length (filter buy_at bars) + length (filter exit_at bars)
     + length (filter (fun x => friday_315 x
                 && match rsi_mapped x with
                    | None => true | Some r => Qle_bool 68 r && Qle_bool r 70 end) bars))%nat) by lia.
  induction bars as [|x l IH]; [reflexivity|].
  rewrite !length_filter_cons, IH, bar_friday_split. lia.
Qed.

Lemma set_nth_same {A} (l : list A) i v :
  (i < length l)%nat -> nth_error (DualMomentum.set_nth i v l) i = Some v.
Proof.
  revert i; induction l as [|x l IH]; intros [|i] H; simpl in *; try lia; try reflexivity.
  apply IH. lia.
Qed.

Lemma set_nth_other {A} (l : list A) i j v :
  i <> j -> nth_error (DualMomentum.set_nth i v l) j = nth_error l j.
Proof.
  revert i j; induction l as [|x l IH]; intros [|i] [|j] H; simpl; try reflexivity; try lia.
  apply IH. lia.
Qed.

Section Writes.
Context {A B : Type} (f : A -> B).

Definition write (arr : list B) (p : nat * A) : list B := DualMomentum.set_nth (fst p) (f (snd p)) arr.

Lemma length_writes sel : forall arr, length (fold_left write sel arr) = length arr.
Proof.
  induction sel as [|p sel IH]; intro arr; [reflexivity|].
  simpl. rewrite IH. apply DualMomentumFacts.length_set_nth.
Qed.

Lemma writes_untouched sel i : forall arr,
  (forall p, In p sel -> fst p <> i) -> nth_error (fold_left write sel arr) i = nth_error arr i.
Proof.
  induction sel as [|p sel IH]; intros arr H; [reflexivity|].
  simpl. rewrite IH by (intros q Hq; apply H; now right).
  apply set_nth_other, H. now left.
Qed.

Lemma writes_touched sel i b : forall arr,
  NoDup (map fst sel) -> In (i, b) sel -> (i < length arr)%nat ->
  nth_error (fold_left write sel arr) i = Some (f b).
Proof.
  induction sel as [|p sel IH]; intros arr Hnd Hin Hl; [destruct Hin|].
  inversion Hnd as [|? ? Hp Hnd']; subst. simpl.
  destruct Hin as [->|Hin].
  - rewrite writes_untouched; [apply set_nth_same; exact Hl|].
    intros q Hq E. apply Hp. simpl. rewrite <- E. apply in_map. exact Hq.
  - apply IH; [exact Hnd'|exact Hin|]. unfold write. rewrite DualMomentumFacts.length_set_nth. exact Hl.
Qed.

End Writes.

Lemma enum_in {A} (l : list A) : forall k i b,
  In (i, b) (combine (seq k (length l)) l) -> (k <= i)%nat /\ nth_error l (i - k) = Some b.
Proof.
  induction l as [|x l IH]; intros k i b H; [destruct H|].
  simpl in H. destruct H as [E|H].
  - injection E as <- <-. rewrite Nat.sub_diag. split; [lia|reflexivity].
  - destruct (IH (S k) i b H) as [H1 H2]. split; [lia|].
    replace (i - k)%nat with (S (i - S k)) by lia. exact H2.
Qed.

Lemma enum_at {A} (l : list A) : forall k i b,
  (k <= i)%nat -> nth_error l (i - k) = Some b -> In (i, b) (combine (seq k (length l)) l).
Proof.
  induction l as [|x l IH]; intros k i b Hk H; [destruct (i - k)%nat; discriminate|].
  simpl. destruct (Nat.eq_dec i k) as [->|Hne].
  - rewrite Nat.sub_diag in H. injection H as ->. now left.
  - right. apply IH; [lia|]. replace (i - k)%nat with (S (i - S k)) in H by lia. exact H.
Qed.

Lemma enum_filter_nodup {A} (g : nat * A -> bool) (l : list A) : forall k,
  NoDup (map fst (filter g (combine (seq k (length l)) l))).
Proof.
  induction l as [|x l IH]; intro k; [constructor|].
  simpl. destruct (g (k, x)); simpl; [|apply IH].
  constructor; [|apply IH].
  intro Hk. apply in_map_iff in Hk as [[i b] [Ei Hin]]. simpl in Ei. subst i.
  apply filter_In in Hin as [Hin _]. apply enum_in in Hin as [Hk _]. lia.
Qed.

Lemma size_arr_loop_nth bars i :
  nth_error (size_arr_loop bars) i = option_map size_at (nth_error bars i).
Proof.
  unfold size_arr_loop.
  change (fun arr p => DualMomentum.set_nth (fst p) (Amount (slab_amount (rsi_mapped (snd p)))) arr)
    with (write (fun b => Amount (slab_amount (rsi_mapped b)))).
  destruct (nth_error bars i) as [b|] eqn:Hb; simpl.
  - assert (Hi : (i < length bars)%nat) by (apply nth_error_Some; congruence).
    unfold size_at. destruct (buy_at b) eqn:Hbuy.
    + apply (writes_touched (fun b => Amount (slab_amount (rsi_mapped b))));
        [apply enum_filter_nodup| |rewrite repeat_length; exact Hi].
      unfold buy_rows. apply filter_In. split; [|exact Hbuy].
      apply enum_at; [lia|]. rewrite Nat.sub_0_r. exact Hb.
    + rewrite (writes_untouched (fun b => Amount (slab_amount (rsi_mapped b)))).
      * apply nth_error_repeat. exact Hi.
      * intros [j b'] Hin Hj. simpl in Hj. subst j.
        unfold buy_rows in Hin. apply filter_In in Hin as [Hin Hbuy']. simpl in Hbuy'.
        apply enum_in in Hin as [_ Hb']. rewrite Nat.sub_0_r, Hb in Hb'.
        injection Hb' as <-. congruence.
  - apply nth_error_None.
    rewrite (length_writes (fun b => Amount (slab_amount (rsi_mapped b)))), repeat_length.
    apply nth_error_None. exact Hb.
Qed.

Lemma size_arr_loop_map bars : size_arr_loop bars = size_arr bars.
Proof.
  apply nth_error_ext. intro i. rewrite size_arr_loop_nth. unfold size_arr.
  rewrite nth_error_map. reflexivity.
Qed.

End RsiFacts.

(** X9: the loop over [close_15m.index[buy_mask]] that writes
    [size_arr.loc[dt]], started from [np.inf] on every bar, gives the
    per-bar series the signal log reads ([size_arr]), and it holds, on
    every Friday 15:15 bar whose mapped weekly RSI [r] is below 68 (a buy
    bar), a cash amount set by the slab of [r]: 50000 (5% of [INIT_CASH])
    for [50 <= r], 100000 (10%) for [30 <= r < 50] and 200000 (20%) for
    [r < 30]; on every other bar (not a Friday 15:15 bar, a NaN RSI, or
    [r >= 68]) it stays [np.inf]. *)
Theorem size_arr_follows_rsi_slabs (bars : list RsiAccumulation.bar15) :
  RsiSizing.size_arr_loop bars = RsiSizing.size_arr bars
  /\ Forall2 (fun b s =>
    (forall r, RsiAccumulation.friday_315 b = true -> RsiAccumulation.rsi_mapped b = Some r ->
       r < 68 ->
       exists a, s = RsiSizing.Amount a
         /\ ((50 <= r /\ a == 50000) \/ (30 <= r /\ r < 50 /\ a == 100000)
             \/ (r < 30 /\ a == 200000)))
    /\ (RsiAccumulation.friday_315 b = false \/ RsiAccumulation.rsi_mapped b = None
        \/ (exists r, RsiAccumulation.rsi_mapped b = Some r /\ 68 <= r) -> s = RsiSizing.Inf))
    bars (RsiSizing.size_arr_loop bars).
Proof.
  split; [apply RsiFacts.size_arr_loop_map|]. rewrite RsiFacts.size_arr_loop_map.
  unfold RsiSizing.size_arr. induction bars as [|x bars IH]; constructor; [|exact IH].
  unfold RsiSizing.size_at, RsiSizing.buy_at, RsiAccumulation.rsi_valid, RsiAccumulation.rsi_lt,
    RsiAccumulation.RSI_BUY_THRESHOLD.
  split.
  - intros r Hf Hr Hlt. rewrite Hf, Hr.
    assert (Hb : RsiAccumulation.Qltb r 68 = true) by (apply RsiFacts.Qltb_true; exact Hlt).
    rewrite Hb. cbn [andb]. eexists; split; [reflexivity|].
    unfold RsiSizing.slab_amount, RsiSizing.INIT_CASH.
    destruct (Qle_bool 50 r) eqn:E1;
      [apply Qle_bool_iff in E1; left; split; [exact E1|reflexivity]|apply RsiFacts.Qle_bool_false in E1].
    destruct (Qle_bool 30 r) eqn:E2;
      [apply Qle_bool_iff in E2; right; left; split; [exact E2|split; [exact E1|reflexivity]]
      |apply RsiFacts.Qle_bool_false in E2].
    right; right; split; [exact E2|reflexivity].
  - intros [Hf|[Hn|[r [Hr Hge]]]].
    + rewrite Hf. reflexivity.
    + rewrite Hn. rewrite andb_false_r. reflexivity.
    + rewrite Hr.
      assert (Hb : RsiAccumulation.Qltb r 68 = false).
      { apply not_true_iff_false. intro H. apply RsiFacts.Qltb_true in H. lra. }
      rewrite Hb, andb_false_r. reflexivity.
Qed.

(** X10: the summary counts of the RSI script: the three [slab_counts]
    are the numbers of Friday 15:15 bars with RSI in [50, 68), [30, 50)
    and below 30 and add up to [buy_count]; [no_action] is the number of
    Friday 15:15 bars whose RSI is NaN or between 68 and 70 inclusive, so
    it is never negative. *)
Theorem rsi_summary_counts (bars : list RsiAccumulation.bar15) :
  RsiSizing.slab_counts bars =
    (length (filter (fun x => RsiAccumulation.friday_315 x && match RsiAccumulation.rsi_mapped x with
                      | Some r => Qle_bool 50 r && RsiAccumulation.Qltb r 68 | None => false end) bars),
     length (filter (fun x => RsiAccumulation.friday_315 x && match RsiAccumulation.rsi_mapped x with
                      | Some r => Qle_bool 30 r && RsiAccumulation.Qltb r 50 | None => false end) bars),
     length (filter (fun x => RsiAccumulation.friday_315 x && match RsiAccumulation.rsi_mapped x with
                      | Some r => RsiAccumulation.Qltb r 30 | None => false end) bars))
  /\ (let '(a, b, c) := RsiSizing.slab_counts bars in (a + b + c)%nat = RsiSizing.buy_count bars)
  /\ RsiSizing.no_action bars =
       Z.of_nat (length (filter (fun x => RsiAccumulation.friday_315 x
                   && match RsiAccumulation.rsi_mapped x with
                      | None => true | Some r => Qle_bool 68 r && Qle_bool r 70 end) bars))
  /\ (0 <= RsiSizing.no_action bars)%Z.
Proof.
  assert (Hfold : forall l a b c,
    fold_left (fun c b => if RsiSizing.buy_at b
                          then RsiSizing.bump (RsiSizing.slab_index (RsiAccumulation.rsi_mapped b)) c
                          else c) l (a, b, c) =
    ((a + length (filter (fun x => RsiAccumulation.friday_315 x && match RsiAccumulation.rsi_mapped x with
                      | Some r => Qle_bool 50 r && RsiAccumulation.Qltb r 68 | None => false end) l))%nat,
     (b + length (filter (fun x => RsiAccumulation.friday_315 x && match RsiAccumulation.rsi_mapped x with
                      | Some r => Qle_bool 30 r && RsiAccumulation.Qltb r 50 | None => false end) l))%nat,
     (c + length (filter (fun x => RsiAccumulation.friday_315 x && match RsiAccumulation.rsi_mapped x with
                      | Some r => RsiAccumulation.Qltb r 30 | None => false end) l))%nat)).
  { induction l as [|x l IH]; intros a b c; [cbn; rewrite !Nat.add_0_r; reflexivity|].
    cbn [fold_left]. rewrite RsiFacts.bar_slab_step, IH, !RsiFacts.length_filter_cons.
    f_equal; [f_equal|]; lia. }
  assert (Hsum : forall l, length (filter RsiSizing.buy_at l) =
    (length (filter (fun x => RsiAccumulation.friday_315 x && match RsiAccumulation.rsi_mapped x with
                      | Some r => Qle_bool 50 r && RsiAccumulation.Qltb r 68 | None => false end) l)
     + length (filter (fun x => RsiAccumulation.friday_315 x && match RsiAccumulation.rsi_mapped x with
                      | Some r => Qle_bool 30 r && RsiAccumulation.Qltb r 50 | None => false end) l)
     + length (filter (fun x => RsiAccumulation.friday_315 x && match RsiAccumulation.rsi_mapped x with
                      | Some r => RsiAccumulation.Qltb r 30 | None => false end) l))%nat).
  { induction l as [|x l IH]; [reflexivity|].
    rewrite !RsiFacts.length_filter_cons, IH, RsiFacts.bar_slab_sum. lia. }
  assert (HS : RsiSizing.slab_counts bars = _) by exact (Hfold bars 0 0 0)%nat.
  rewrite HS. cbn [Nat.add]. split; [reflexivity|].
  pose proof (RsiFacts.no_action_count bars) as HN.
  split; [rewrite RsiFacts.buy_count_filter, Hsum; reflexivity|].
  split; [exact HN|]. rewrite HN. lia.
Qed.

(** X11: the weekly signal log has one line per Friday 15:15 bar with a
    non-NaN RSI; its BUY lines are exactly [buy_count] and its EXIT lines
    [exit_count]; its HOLD lines plus the Friday 15:15 bars skipped for a
    NaN RSI make up [no_action]; and every BUY line shows a percentage of
    5, 10 or 20. *)
Theorem signal_log_matches_counts (bars : list RsiAccumulation.bar15) :
  let log := RsiSizing.signal_log bars in
  length log = length (filter (fun x => RsiAccumulation.friday_315 x
                         && DualMomentum.is_some (RsiAccumulation.rsi_mapped x)) bars)
  /\ length (filter RsiSizing.is_buy log) = RsiSizing.buy_count bars
  /\ length (filter RsiSizing.is_exit log) = RsiSizing.exit_count bars
  /\ (Z.of_nat (length (filter (fun a => match a with RsiSizing.HOLD => true | _ => false end) log))
      + Z.of_nat (length (filter (fun x => RsiAccumulation.friday_315 x
                   && negb (DualMomentum.is_some (RsiAccumulation.rsi_mapped x))) bars))
      = RsiSizing.no_action bars)%Z
  /\ (forall a, In a log ->
        a = RsiSizing.EXIT \/ a = RsiSizing.HOLD
        \/ exists p, a = RsiSizing.BUY (RsiSizing.Amount p) /\ (p == 5 \/ p == 10 \/ p == 20)).
Proof.
  intro log. unfold log, RsiSizing.signal_log.
  assert (HL : forall (f : RsiSizing.action -> bool) (g : RsiAccumulation.bar15 -> bool),
    (forall x, length (filter f (RsiSizing.log_at x)) = RsiFacts.b2n (g x)) ->
    forall l, length (filter f (flat_map RsiSizing.log_at l)) = length (filter g l)).
  { intros f g Hx l. induction l as [|x l IH]; [reflexivity|].
    cbn [flat_map]. rewrite RsiFacts.length_filter_app, RsiFacts.length_filter_cons, IH, Hx.
    reflexivity. }
  assert (Hlen : forall l, length (flat_map RsiSizing.log_at l)
                 = length (filter (fun x => RsiAccumulation.friday_315 x
                         && DualMomentum.is_some (RsiAccumulation.rsi_mapped x)) l)).
  { assert (Ht : forall l : list RsiSizing.action, filter (fun _ => true) l = l)
      by (induction l; simpl; congruence).
    intro l. rewrite <- (HL (fun _ => true)); [now rewrite Ht|].
    intro x. rewrite Ht. unfold RsiSizing.log_at.
      destruct (RsiAccumulation.friday_315 x); destruct (RsiAccumulation.rsi_mapped x); reflexivity. }
  split; [apply Hlen|]. split; [|split; [|split]].
  - rewrite RsiFacts.buy_count_filter. apply HL. intro x.
    unfold RsiSizing.log_at, RsiSizing.is_buy. RsiFacts.bar_cases x.
  - rewrite RsiFacts.exit_count_filter. apply HL. intro x.
    unfold RsiSizing.log_at, RsiSizing.is_exit. RsiFacts.bar_cases x.
  - rewrite RsiFacts.no_action_count.
    rewrite (HL _ (fun x => RsiAccumulation.friday_315 x
                 && match RsiAccumulation.rsi_mapped x with
                    | None => false | Some r => Qle_bool 68 r && Qle_bool r 70 end)).
    + rewrite <- Nat2Z.inj_add. f_equal.
      induction bars as [|x l IH]; [reflexivity|].
      rewrite !RsiFacts.length_filter_cons, <- IH.
      enough (RsiFacts.b2n (RsiAccumulation.friday_315 x && match RsiAccumulation.rsi_mapped x with
                    | None => false | Some r => Qle_bool 68 r && Qle_bool r 70 end)
              + RsiFacts.b2n (RsiAccumulation.friday_315 x
                   && negb (DualMomentum.is_some (RsiAccumulation.rsi_mapped x)))
              = RsiFacts.b2n (RsiAccumulation.friday_315 x
                 && match RsiAccumulation.rsi_mapped x with
                    | None => true | Some r => Qle_bool 68 r && Qle_bool r 70 end))%nat by lia.
      destruct (RsiAccumulation.friday_315 x); destruct (RsiAccumulation.rsi_mapped x); cbn;
        try reflexivity.
      destruct (Qle_bool 68 q && Qle_bool q 70); reflexivity.
    + intro x. unfold RsiSizing.log_at. RsiFacts.bar_cases x.
  - intros a Ha. apply in_flat_map in Ha as [x [_ Hx]].
    unfold RsiSizing.log_at in Hx.
    destruct (RsiAccumulation.friday_315 x) eqn:Hf; [|destruct Hx].
    destruct (RsiAccumulation.rsi_mapped x) as [r|] eqn:Hr; [|destruct Hx].
    destruct Hx as [<-|[]].
    destruct (RsiSizing.buy_at x) eqn:Hb; [|destruct (RsiSizing.exit_at x); auto].
    right; right. unfold RsiSizing.size_at. rewrite Hb, Hr.
    eexists; split; [reflexivity|].
    unfold RsiSizing.slab_amount, RsiSizing.INIT_CASH.
    destruct (Qle_bool 50 r); [left; reflexivity|].
    destruct (Qle_bool 30 r); [right; left; reflexivity|right; right; reflexivity].
Qed.

(* ------------------------------------------------------------------ *)
(** ** Mapping the weekly RSI onto the bars; the start of a CAGR period *)
Module MappingFacts.
Import DualMomentum RsiMapping.

Lemma last_le_searchsorted {A} (ks : list Z) (xs : list (option A)) (acc : option A) (t : Z) :
  (length ks <= length xs)%nat ->
  last_le acc (combine ks xs) t =
  match searchsorted_right ks t with O => acc | S j => nth j xs None end.
Proof.
  revert xs acc; induction ks as [|k ks IH]; intros xs acc Hl; [reflexivity|].
  destruct xs as [|x xs]; [simpl in Hl; lia|]. simpl in Hl |- *.
  destruct (k <=? t)%Z; [|reflexivity].
  rewrite IH by lia. destruct (searchsorted_right ks t); reflexivity.
Qed.

End MappingFacts.

Module PeriodFacts.
Import PeriodCagr.

Lemma last_default (l : list Z) d d' : l <> [] -> last l d = last l d'.
Proof.
  induction l as [|a [|b r] IH]; intro H; [contradiction|reflexivity|].
  change (last (b :: r) d = last (b :: r) d'). apply IH. discriminate.
Qed.

Lemma last_in (l : list Z) d : l <> [] -> In (last l d) l.
Proof.
  induction l as [|a [|b r] IH]; intro H; [contradiction|left; reflexivity|].
  right. apply IH. discriminate.
Qed.

Lemma sorted_le_last (l : list Z) d x :
  StronglySorted Z.le l -> In x l -> (x <= last l d)%Z.
Proof.
  induction l as [|a r IH]; intros Hs Hx; [destruct Hx|].
  inversion Hs as [|? ? Hr Ha]; subst.
  destruct r as [|b r].
  - destruct Hx as [<-|[]]. simpl. lia.
  - change (last (a :: b :: r) d) with (last (b :: r) d).
    destruct Hx as [<-|Hx]; [|apply IH; assumption].
    rewrite Forall_forall in Ha. apply Ha, last_in. discriminate.
Qed.

Lemma filter_head_min (p : Z -> bool) (l : list Z) s rest :
  StronglySorted Z.le l -> filter p l = s :: rest ->
  In s l /\ p s = true /\ (forall d, In d l -> p d = true -> (s <= d)%Z).
Proof.
  induction l as [|a r IH]; intros Hs Hf; [discriminate|].
  inversion Hs as [|? ? Hr Ha]; subst. rewrite Forall_forall in Ha.
  simpl in Hf. destruct (p a) eqn:Hp.
  - injection Hf as <- _. split; [left; reflexivity|]. split; [exact Hp|].
    intros d [<-|Hd] _; [lia|apply Ha, Hd].
  - destruct (IH Hr Hf) as [H1 [H2 H3]]. split; [right; exact H1|]. split; [exact H2|].
    intros d [<-|Hd] Hpd; [congruence|apply H3; assumption].
Qed.

Lemma lookback_days_nonneg yrs : (0 <= yrs)%Z -> (0 <= lookback_days yrs)%Z.
Proof.
  intro H. unfold lookback_days.
  change 0%Z with (Qfloor 0). apply Qfloor_resp_le.
  apply Qmult_le_0_compat; [|discriminate].
  change 0 with (inject_Z 0). rewrite <- Zle_Qle. exact H.
Qed.

End PeriodFacts.

(** X12: [rsi_weekly.shift(1).reindex(df_15m.index, method="ffill")] at a
    bar time [t] is the weekly RSI of the week BEFORE the last weekly label
    [<= t]: when [k] weekly labels are [<= t], it is the RSI stored at the
    [(k-1)]-th label (position [k-2]), and NaN when fewer than two labels
    are [<= t]. *)
Theorem rsi_mapped_is_week_before_last_label
  (rsi_weekly : DualMomentum.series (option Q)) (t : Z) :
  RsiMapping.rsi_mapped_at rsi_weekly t =
  match DualMomentum.searchsorted_right (map fst rsi_weekly) t with
  | S (S j) => nth j (map snd rsi_weekly) None
  | _ => None
  end.
Proof.
  unfold RsiMapping.rsi_mapped_at, RsiMapping.reindex_ffill, DualMomentum.shift1.
  rewrite MappingFacts.last_le_searchsorted by (simpl; rewrite !length_map; lia).
  destruct (DualMomentum.searchsorted_right (map fst rsi_weekly) t) as [|[|j]]; reflexivity.
Qed.

(** X13: on a non-empty sorted daily index and for [yrs >= 0], a period
    row is never skipped: the start day is the earliest trading day on or
    after [last_date - int(yrs * 365.25)] days, it lies in the index
    between that lookback date and [last_date], the window length
    [(last_date - start_idx).days] is between 0 and [int(yrs * 365.25)],
    and when the index begins after the lookback date the window starts on
    the first trading day (a shorter window than the period's label). *)
Theorem period_start_nearest_trading_day (idx : list Z) (yrs : Z) :
  idx <> [] -> Sorted Z.le idx -> (0 <= yrs)%Z ->
  let last_date := last idx 0%Z in
  let lookback := (last_date - PeriodCagr.lookback_days yrs)%Z in
  exists s, PeriodCagr.period_start idx yrs = PeriodCagr.PeriodRow s (last_date - s)
    /\ In s idx /\ (lookback <= s <= last_date)%Z
    /\ (forall d, In d idx -> (lookback <= d)%Z -> (s <= d)%Z)
    /\ (0 <= last_date - s <= PeriodCagr.lookback_days yrs)%Z
    /\ ((lookback <= hd 0 idx)%Z -> s = hd 0%Z idx).
Proof.
  intros Hne Hs Hy last_date lookback.
  apply Sorted_StronglySorted in Hs; [|intros x y z; lia].
  destruct idx as [|d0 r]; [contradiction|].
  pose proof (PeriodFacts.lookback_days_nonneg yrs Hy) as Hlb.
  assert (HL : last (d0 :: r) d0 = last_date) by (apply PeriodFacts.last_default; exact Hne).
  assert (HLin : In last_date (d0 :: r)) by (apply PeriodFacts.last_in; exact Hne).
  unfold PeriodCagr.period_start. rewrite HL. fold lookback.
  destruct (filter (fun d => (lookback <=? d)%Z) (d0 :: r)) as [|s rest] eqn:Hf.
  - exfalso. assert (Hin : In last_date (filter (fun d => (lookback <=? d)%Z) (d0 :: r))).
    { apply filter_In. split; [exact HLin|]. apply Z.leb_le. unfold lookback. lia. }
    rewrite Hf in Hin. destruct Hin.
  - destruct (PeriodFacts.filter_head_min _ _ _ _ Hs Hf) as [Hin [Hp Hmin]].
    apply Z.leb_le in Hp.
    assert (Hsl : (s <= last_date)%Z) by (apply PeriodFacts.sorted_le_last; assumption).
    exists s. split; [reflexivity|]. split; [exact Hin|]. split; [lia|].
    split; [intros d Hd Hld; apply Hmin; [exact Hd|apply Z.leb_le; exact Hld]|].
    split; [unfold lookback in Hp; lia|].
    intro Hd0. simpl in Hd0 |- *.
    apply Z.le_antisymm.
    + apply Hmin; [left; reflexivity|apply Z.leb_le; exact Hd0].
    + inversion Hs as [|? ? _ Ha]; subst. rewrite Forall_forall in Ha.
      destruct Hin as [<-|Hin]; [lia|apply Ha, Hin].
Qed.

Lemma period_start_nearest_trading_day_witness :
  exists s, PeriodCagr.period_start [10; 20; 400; 800]%Z 5 = PeriodCagr.PeriodRow s (800 - s)
    /\ In s [10; 20; 400; 800]%Z /\ (800 - PeriodCagr.lookback_days 5 <= s <= 800)%Z
    /\ (forall d, In d [10; 20; 400; 800]%Z -> (800 - PeriodCagr.lookback_days 5 <= d)%Z -> (s <= d)%Z)
    /\ (0 <= 800 - s <= PeriodCagr.lookback_days 5)%Z
    /\ ((800 - PeriodCagr.lookback_days 5 <= 10)%Z -> s = 10%Z).
Proof.
  refine (period_start_nearest_trading_day [10; 20; 400; 800]%Z 5 _ _ _).
  - discriminate.
  - repeat first [lia | constructor].
  - lia.
Defined.

(* ------------------------------------------------------------------ *)
(** ** The fixed-deposit curve *)
Module FdFacts.
Import FdBenchmark.
Local Open Scope R_scope.

Lemma fd_base_gt_1 : 1 < 1 + FD_CAGR.
Proof. unfold FD_CAGR. lra. Qed.

Lemma fd_equity_nth (n k : nat) : (k < n)%nat ->
  nth k (fd_equity n) 0 = INIT_CASH * Rpower (1 + FD_CAGR) (INR k / (36525 / 100)).
Proof.
  intro Hk. unfold fd_equity.
  set (f := fun k : nat => INIT_CASH * (1 + fd_daily_rate) ^ k).
  assert (E : nth k (map f (seq 0 n)) 0 = f (nth k (seq 0 n) 0%nat)).
  { transitivity (nth k (map f (seq 0 n)) (f 0%nat)); [|apply map_nth].
    apply nth_indep. rewrite length_map, length_seq. exact Hk. }
  rewrite E, seq_nth by exact Hk. cbn [Nat.add]. unfold f.
  assert (Hb : 1 + fd_daily_rate = Rpower (1 + FD_CAGR) (1 / (36525 / 100)))
    by (unfold fd_daily_rate; ring).
  rewrite Hb, <- Rpower_pow by (unfold Rpower; apply exp_pos).
  rewrite Rpower_mult. f_equal. f_equal. field.
Qed.

Lemma Rpower_inj_exp (b x y : R) : 1 < b -> Rpower b x = Rpower b y -> x = y.
Proof.
  intros Hb H. destruct (Rtotal_order x y) as [Hl|[E|Hl]]; [|exact E|].
  - pose proof (Rpower_lt b x y Hb Hl). lra.
  - pose proof (Rpower_lt b y x Hb Hl). lra.
Qed.

End FdFacts.

(** X14: the FD equity curve compounds once per ROW of the index it is
    built on, not per calendar day: row [k] holds
    [INIT_CASH * (1 + FD_CAGR) ** (k / 365.25)], so a row equals
    [fd_final] for [n_years = n_days / 365.25] exactly when [k = n_days],
    and every row before it is strictly below [fd_final]. With fewer rows
    than calendar days the curve ends below the reported FD final value. *)
Theorem fd_equity_compounds_per_row (N n_days : nat) :
  length (FdBenchmark.fd_equity N) = N
  /\ forall k, (k < N)%nat ->
       nth k (FdBenchmark.fd_equity N) 0%R
         = (FdBenchmark.INIT_CASH * Rpower (1 + FdBenchmark.FD_CAGR) (INR k / (36525 / 100)))%R
       /\ (nth k (FdBenchmark.fd_equity N) 0%R
             = FdBenchmark.fd_final (INR n_days / (36525 / 100)) <-> k = n_days)
       /\ ((k < n_days)%nat ->
             (nth k (FdBenchmark.fd_equity N) 0%R
              < FdBenchmark.fd_final (INR n_days / (36525 / 100)))%R).
Proof.
  split; [unfold FdBenchmark.fd_equity; rewrite length_map; apply length_seq|].
  intros k Hk. rewrite FdFacts.fd_equity_nth by exact Hk.
  unfold FdBenchmark.fd_final.
  assert (Hc : (0 < FdBenchmark.INIT_CASH)%R) by (unfold FdBenchmark.INIT_CASH; lra).
  split; [reflexivity|]. split.
  - split.
    + intro H. apply Rmult_eq_reg_l in H; [|lra].
      apply FdFacts.Rpower_inj_exp in H; [|exact FdFacts.fd_base_gt_1].
      apply INR_eq. apply (Rmult_eq_reg_r (/ (36525 / 100))); [exact H|].
      apply Rinv_neq_0_compat. lra.
    + intros ->. reflexivity.
  - intro Hl. apply Rmult_lt_compat_l; [exact Hc|].
    apply Rpower_lt; [exact FdFacts.fd_base_gt_1|].
    unfold Rdiv. apply Rmult_lt_compat_r; [apply Rinv_0_lt_compat; lra|].
    apply lt_INR, Hl.
Qed.

Lemma fd_equity_compounds_per_row_witness :
  (nth 2 (FdBenchmark.fd_equity 3) 0%R < FdBenchmark.fd_final (INR 5 / (36525 / 100)))%R.
Proof.
  apply (proj2 (proj2 (proj2 (fd_equity_compounds_per_row 3 5) 2%nat ltac:(lia)))). lia.
Defined.

(* ------------------------------------------------------------------ *)
(** ** The target weights handed to the engine *)
Module TargetFacts.
Import DualMomentum Rebalance.

Lemma length_switch_mask (l : list (option symbol)) : length (switch_mask l) = length l.
Proof.
  destruct l as [|a r]; [reflexivity|]. simpl. rewrite length_map, length_combine. simpl. lia.
Qed.

Lemma nth_error_combine_pair {A B} (l1 : list A) (l2 : list B) i x y :
  nth_error l1 i = Some x -> nth_error l2 i = Some y -> nth_error (combine l1 l2) i = Some (x, y).
Proof.
  revert l2 i; induction l1 as [|a l1 IH]; intros [|b l2] [|i] H1 H2; simpl in *;
    try discriminate; [now injection H1 as ->; injection H2 as ->|apply IH; assumption].
Qed.

Lemma target_nth idx winner j a b :
  nth_error (alloc_daily idx winner) j = Some a ->
  nth_error (switch_mask (alloc_daily idx winner)) j = Some b ->
  nth_error (target_on_switch idx winner) j =
  Some (if b then Some (weight_of NIFTYBEES a, weight_of GOLDBEES a) else None).
Proof.
  intros Ha Hb. unfold target_on_switch. rewrite nth_error_map.
  rewrite (nth_error_combine_pair _ _ j (weight_of NIFTYBEES a, weight_of GOLDBEES a) b);
    [reflexivity| |exact Hb].
  unfold weights. rewrite nth_error_map, Ha. reflexivity.
Qed.

End TargetFacts.

(** X15: once a shifted quarter winner lands on a trading day,
    [target_on_switch] has one row per row of [alloc_daily]; a row where
    [switch_mask] is [False] is NaN (no order), and a row where it is
    [True] asks for [ALLOCATION] (75%) of the held ETF and 0 of the other:
    [(0.75, 0)] when [alloc_daily] holds NIFTYBEES, [(0, 0.75)] when it
    holds GOLDBEES. *)
Theorem target_on_switch_rows
  (idx : list Z) (winner : DualMomentum.series (option DualMomentum.symbol))
  (dt0 : Z) (s0 : DualMomentum.symbol) :
  In (dt0, s0) (DualMomentum.dropna (DualMomentum.shift1 winner)) ->
  (DualMomentum.searchsorted_right idx dt0 < length idx)%nat ->
  length (Rebalance.target_on_switch idx winner) = length (DualMomentum.alloc_daily idx winner)
  /\ forall j a, nth_error (DualMomentum.alloc_daily idx winner) j = Some a ->
       (nth_error (Rebalance.switch_mask (DualMomentum.alloc_daily idx winner)) j = Some false ->
          nth_error (Rebalance.target_on_switch idx winner) j = Some None)
       /\ (nth_error (Rebalance.switch_mask (DualMomentum.alloc_daily idx winner)) j = Some true ->
          exists s, a = Some s
            /\ nth_error (Rebalance.target_on_switch idx winner) j
               = Some (Some (match s with
                             | DualMomentum.NIFTYBEES => (DualMomentum.ALLOCATION, 0)
                             | DualMomentum.GOLDBEES => (0, DualMomentum.ALLOCATION)
                             end))).
Proof.
  intros Hin Hp.
  pose proof (DualMomentumFacts.alloc_daily_all_some idx winner dt0 s0 Hin Hp) as Hall.
  split.
  - unfold Rebalance.target_on_switch, DualMomentum.weights.
    rewrite length_map, length_combine, length_map, TargetFacts.length_switch_mask. lia.
  - intros j a Ha. split.
    + intro Hb. rewrite (TargetFacts.target_nth _ _ _ _ _ Ha Hb). reflexivity.
    + intro Hb. rewrite (TargetFacts.target_nth _ _ _ _ _ Ha Hb).
      rewrite Forall_forall in Hall.
      destruct a as [s|]; [|discriminate (Hall None (nth_error_In _ _ Ha))].
      exists s. split; [reflexivity|]. destruct s; reflexivity.
Qed.

Lemma target_on_switch_rows_witness :
  nth_error (Rebalance.target_on_switch [1; 2; 3; 4; 5; 6; 7; 8]%Z
    [(0%Z, None); (2%Z, Some DualMomentum.GOLDBEES); (4%Z, Some DualMomentum.NIFTYBEES);
     (6%Z, Some DualMomentum.GOLDBEES)]) 2
  = Some (Some (DualMomentum.ALLOCATION, 0)).
Proof.
  destruct (proj2 (target_on_switch_rows [1; 2; 3; 4; 5; 6; 7; 8]%Z
    [(0%Z, None); (2%Z, Some DualMomentum.GOLDBEES); (4%Z, Some DualMomentum.NIFTYBEES);
     (6%Z, Some DualMomentum.GOLDBEES)] 4 DualMomentum.GOLDBEES
    ltac:(simpl; auto) ltac:(vm_compute; lia)) 2%nat (Some DualMomentum.NIFTYBEES)
    ltac:(vm_compute; reflexivity)) as [_ H].
  destruct (H ltac:(vm_compute; reflexivity)) as [s [Es Ht]].
  injection Es as <-. exact Ht.
Defined.
